(** * Multi-worker fallback and worker-health tracking of SearchController

    Shallow embedding of the search controller of [src/scripts/settings.js]
    (class [SearchController]): the health map [this.workerHealth], the
    recovery timers armed by [updateWorkerStatus], and the fetch
    orchestration [fetchFromWorker] / [fetchWithFallback] /
    [executeSearch] / [performSearch].

    Numbers.  JavaScript numbers are IEEE-754 binary64 values.  The response
    times ([performance.now()] differences, the smoothed [responseTime]) are
    modelled by Rocq's primitive binary64 floats, whose [+] and [*] round
    exactly as JavaScript's do.  The two counters [errorCount] and
    [successCount] only ever hold integers reached by [++], [x - 1] and
    [Math.max(0, _)]; they are modelled in [Z] (binary64 is exact on integers
    below 2^53, and a counter never exceeds the number of events handled,
    see [counters_bounded_by_outcomes]).  Clock readings ([Date.now()]) and
    timer delays are integer milliseconds in [Z]. *)

From Stdlib Require Import ZArith NArith Floats Lia HexString.
From stdpp Require Import gmap strings list pretty.

Set Warnings "-inexact-float,-register-all".
Open Scope Z_scope.

(** ** Data model *)

(** The object stored per worker in [this.workerHealth]. *)
Record WorkerHealth := mkHealth {
  healthy : bool;
  lastCheck : Z;
  responseTime : float;
  errorCount : Z;
  successCount : Z
}.

(** What the controller does that an observer can see, in program order:
    a [fetch(url, ...)] call, a call of [updateWorkerStatus], a
    [delay(ms)] wait.  The trace is only written, never read, by the model. *)
Inductive Effect :=
| EFetch (url : string)
| ERecord (workerUrl : string) (success : bool)
| EDelay (ms : Z).

(** An [AbortController]: only its signal's [aborted] flag matters. *)
Record AbortController := mkController { aborted : bool }.

(** The mutable state of one [SearchController] instance together with the
    part of the browser it talks to: the pending [setTimeout] callbacks of
    [updateWorkerStatus] (due time and the [workerUrl] each closure
    captured, in the order they were armed) and the clock. *)
Record World := mkWorld {
  workerHealth : gmap string WorkerHealth;
  timers : list (Z * string);
  clock : Z;
  abortController : option AbortController;
  trace : list Effect
}.

Definition set_workerHealth (f : gmap string WorkerHealth -> gmap string WorkerHealth)
    (w : World) : World :=
  mkWorld (f (workerHealth w)) (timers w) (clock w) (abortController w) (trace w).

Definition set_timers (f : list (Z * string) -> list (Z * string)) (w : World) : World :=
  mkWorld (workerHealth w) (f (timers w)) (clock w) (abortController w) (trace w).

Definition set_clock (t : Z) (w : World) : World :=
  mkWorld (workerHealth w) (timers w) t (abortController w) (trace w).

Definition set_abortController (c : option AbortController) (w : World) : World :=
  mkWorld (workerHealth w) (timers w) (clock w) c (trace w).

Definition emit (e : Effect) (w : World) : World :=
  mkWorld (workerHealth w) (timers w) (clock w) (abortController w) (trace w ++ [e]).

(** [this.workers]: one primary URL and the ordered fallbacks. *)
Record Workers := mkWorkers {
  primary : string;
  fallbacks : list string
}.

(** The two entries of [this.config] the orchestration reads. *)
Record Config := mkConfig {
  maxRetries : Z;
  requestTimeout : Z
}.

(** The values set by the constructor (settings.js 1099-1120). *)
Definition defaultWorkers : Workers :=
  mkWorkers "https://proxy.yoohoo.workers.dev"
    [ "https://proxy1.yoohoo.workers.dev";
      "https://proxy2.yoohoo.workers.dev";
      "https://proxy3.yoohoo.workers.dev";
      "https://proxy4.yoohoo.workers.dev";
      "https://proxy5.yoohoo.workers.dev" ].

Definition defaultConfig : Config := mkConfig 3 15000.

(** [[this.workers.primary, ...this.workers.fallbacks]] *)
Definition workerList (ws : Workers) : list string := primary ws :: fallbacks ws.

(** ** The health tracker *)

Module Tracker.

(** The object literal of [initializeWorkerHealth] (and, with
    [lastCheck: Date.now()], the fallback literal of [updateWorkerStatus]). *)
Definition freshHealth (now : Z) : WorkerHealth :=
  mkHealth true now 0%float 0 0.

(** [initializeWorkerHealth]: [forEach] over primary and fallbacks, each
    [Map.set] to a new default object with [lastCheck: 0]. *)
Definition initializeWorkerHealth (ws : Workers) (w : World) : World :=
  foldl (fun acc worker => set_workerHealth (insert worker (freshHealth 0)) acc)
        w (workerList ws).

(** [5 * 60 * 1000], the delay given to [setTimeout]. *)
Definition recoveryDelay : Z := 5 * 60 * 1000.

(** The success branch applied to the record (settings.js 1472-1478). *)
Definition onSuccess (sample : float) (h : WorkerHealth) : WorkerHealth :=
  let successCount' := successCount h + 1 in
  let errorCount' := Z.max 0 (errorCount h - 1) in
  let responseTime' := (responseTime h * 0.7 + sample * 0.3)%float in
  mkHealth (if 3 <=? successCount' then true else healthy h)
           (lastCheck h) responseTime' errorCount' successCount'.

(** The failure branch applied to the record (settings.js 1480-1486). *)
Definition onFailure (h : WorkerHealth) : WorkerHealth :=
  let errorCount' := errorCount h + 1 in
  let successCount' := Z.max 0 (successCount h - 1) in
  mkHealth (if 3 <=? errorCount' then false else healthy h)
           (lastCheck h) (responseTime h) errorCount' successCount'.

(** [health.lastCheck = Date.now()] *)
Definition touch (now : Z) (h : WorkerHealth) : WorkerHealth :=
  mkHealth (healthy h) now (responseTime h) (errorCount h) (successCount h).

(** [updateWorkerStatus(workerUrl, success, responseTime = 0)].  The object
    read from the map (or the default literal when [get] gives [undefined])
    is mutated and written back; on failure a recovery callback is armed
    with [setTimeout(..., 5 * 60 * 1000)], whatever the counters are. *)
Definition updateWorkerStatus (workerUrl : string) (success : bool) (sample : float)
    (w : World) : World :=
  let health := default (freshHealth (clock w)) (workerHealth w !! workerUrl) in
  let health := touch (clock w) health in
  let w := emit (ERecord workerUrl success) w in
  if success then
    set_workerHealth (insert workerUrl (onSuccess sample health)) w
  else
    set_workerHealth (insert workerUrl (onFailure health))
      (set_timers (fun ts => ts ++ [(clock w + recoveryDelay, workerUrl)]) w).

(** What the recovery callback does to the record it finds. *)
Definition recovered (h : WorkerHealth) : WorkerHealth :=
  mkHealth true (lastCheck h) (responseTime h) 0 (successCount h).

(** The body of the [setTimeout] callback (settings.js 1489-1496). *)
Definition autoRecover (workerUrl : string) (w : World) : World :=
  match workerHealth w !! workerUrl with
  | Some currentHealth =>
      if negb (healthy currentHealth)
      then set_workerHealth (insert workerUrl (recovered currentHealth)) w
      else w
  | None => w
  end.

(** The events that reach the tracker: an outcome is recorded, time passes,
    or the browser runs the oldest pending recovery callback, which it does
    only once that callback is due. *)
Inductive Event :=
| Outcome (workerUrl : string) (success : bool) (sample : float)
| Elapse (ms : N)
| TimerFires.

Definition handle (e : Event) (w : World) : World :=
  match e with
  | Outcome workerUrl success sample => updateWorkerStatus workerUrl success sample w
  | Elapse ms => set_clock (clock w + Z.of_N ms) w
  | TimerFires =>
      match timers w with
      | (due, workerUrl) :: rest =>
          if due <=? clock w
          then autoRecover workerUrl (set_timers (fun _ => rest) w)
          else w
      | [] => w
      end
  end.

Definition run (es : list Event) (w : World) : World := foldl (fun acc e => handle e acc) w es.

(** A new controller: empty map, no timer, no trace. *)
Definition emptyWorld (now : Z) : World := mkWorld ∅ [] now None [].

(** The world after the constructor has run [initializeWorkerHealth]. *)
Definition startWorld (ws : Workers) (now : Z) : World :=
  initializeWorkerHealth ws (emptyWorld now).

(** The record of [url], as [isHealthy]/[getHealth] of the spec would read it. *)
Definition healthOf (url : string) (w : World) : option WorkerHealth :=
  workerHealth w !! url.

(** Every record of [w] has both counters between 0 and [n]. *)
Definition countersWithin (n : Z) (w : World) : Prop :=
  ∀ url h, healthOf url w = Some h →
    0 ≤ errorCount h ≤ n ∧ 0 ≤ successCount h ≤ n.

(** The record an operation on [url] starts from: the stored object, or
    the default literal of [updateWorkerStatus] when the map has none. *)
Definition current (url : string) (w : World) : WorkerHealth :=
  default (freshHealth (clock w)) (healthOf url w).

(** The oldest pending recovery callback belongs to [url] and is due. *)
Definition timerDue (url : string) (w : World) : Prop :=
  ∃ due rest, timers w = (due, url) :: rest ∧ due ≤ clock w.

End Tracker.

(** ** The fetch orchestration *)

Module Orchestrator.

Import Tracker.

(** A parsed JSON payload ([response.json()]). *)
Inductive JsonVal :=
| JNull
| JBool (b : bool)
| JNum (x : float)
| JStr (s : string)
| JArr (items : list JsonVal)
| JObj (fields : list (string * JsonVal)).

(** A thrown JavaScript error object: its [name] and [message]. *)
Record JsError := mkError { name : string; message : string }.

(** [new Error(msg)] *)
Definition Error (msg : string) : JsError := mkError "Error" msg.

(** The rejection of [fetch] when its signal is aborted.  Only the name is
    fixed by the platform; the message text differs between browsers. *)
Definition AbortError : JsError := mkError "AbortError" "The operation was aborted.".

(** How a statement, or an awaited promise, completes. *)
Inductive Completion (A : Type) :=
| Normal (a : A)
| Throw (e : JsError).
Arguments Normal {A} a.
Arguments Throw {A} e.

(** Controller code: a state transformer over [World] that returns or throws. *)
Definition M (A : Type) : Type := World -> Completion A * World.

Definition ret {A} (a : A) : M A := fun w => (Normal a, w).

Definition throw {A} (e : JsError) : M A := fun w => (Throw e, w).

Definition bind {A B} (m : M A) (k : A -> M B) : M B :=
  fun w => match m w with
           | (Normal a, w') => k a w'
           | (Throw e, w') => (Throw e, w')
           end.

(** [try { body } catch (error) { handler }] *)
Definition try_catch {A} (body : M A) (handler : JsError -> M A) : M A :=
  fun w => match body w with
           | (Normal a, w') => (Normal a, w')
           | (Throw e, w') => handler e w'
           end.

(** A call of a method that only changes the state. *)
Definition call (f : World -> World) : M unit := fun w => (Normal tt, f w).

Definition get {A} (f : World -> A) : M A := fun w => (Normal (f w), w).

Declare Scope js_scope.
Delimit Scope js_scope with js.
Notation "x <- m ;; k" := (bind m (fun x => k))
  (at level 100, m at next level, right associativity) : js_scope.
Notation "m ;;; k" := (bind m (fun _ => k))
  (at level 100, right associativity) : js_scope.
Open Scope js_scope.

(** An HTTP response as far as [fetchFromWorker] looks at it: the status
    line, the time [response.json()] takes, and what the body parses to
    ([None]: the body is not JSON and [json()] rejects). *)
Record Response := mkResponse {
  status : Z;
  statusText : string;
  bodyTime : N;
  body : option JsonVal
}.

(** [response.ok]: a status in the range 200-299. *)
Definition ok (r : Response) : bool := (200 <=? status r) && (status r <=? 299).

(** What the network does with one request, left alone: it never answers,
    it fails after [latency] ms (DNS, connection, CORS: [fetch] rejects with
    a [TypeError]), or it answers after [latency] ms. *)
Inductive NetBehaviour :=
| NetHang
| NetError (latency : N) (reason : string)
| NetResponse (latency : N) (r : Response).

(** JavaScript truthiness of a parsed value ([!data] is its negation). *)
Definition truthy (v : JsonVal) : bool :=
  match v with
  | JNull => false
  | JBool b => b
  | JNum x => negb (PrimFloat.eqb x 0 || negb (PrimFloat.eqb x x))
  | JStr s => negb (String.eqb s EmptyString)
  | JArr _ | JObj _ => true
  end.

(** [typeof data === 'object' && Object.keys(data).length === 0].  Arrays
    are objects whose keys are their indices.  For [null] the test is never
    reached, [!data] being true. *)
Definition emptyObject (v : JsonVal) : bool :=
  match v with
  | JNull => true
  | JArr items => Nat.eqb (length items) 0
  | JObj fields => Nat.eqb (length fields) 0
  | _ => false
  end.

(** The validation test of [fetchFromWorker] (settings.js 1449). *)
Definition invalidPayload (data : JsonVal) : bool :=
  negb (truthy data) || emptyObject data.

(** [obj.key] on a parsed value: the last binding of [key] in an object,
    [undefined] ([None]) otherwise. *)
Fixpoint lookupField (key : string) (fields : list (string * JsonVal)) : option JsonVal :=
  match fields with
  | [] => None
  | (k, v) :: rest =>
      match lookupField key rest with
      | Some v' => Some v'
      | None => if String.eqb k key then Some v else None
      end
  end.

Definition property (key : string) (v : JsonVal) : option JsonVal :=
  match v with
  | JObj fields => lookupField key fields
  | _ => None
  end.

(** [haystack.includes(needle)] for a non-empty needle. *)
Definition includes (needle haystack : string) : bool :=
  match String.index 0 needle haystack with
  | Some _ => true
  | None => false
  end.

(** What the user interface ends up doing for one [performSearch] call. *)
Inductive UiOutcome :=
| EmptyState
| Processed (response : JsonVal)
| CorsErrorShown
| ErrorShown (text : string)
| CancelledLogged.

Section Controller.

(** [this.config] and [this.workers], taken as fixed during one request. *)
Variable cfg : Config.
Variable ws : Workers.

(** The environment: what the network does with a request to [url] issued
    at clock time [t]; the clock time, if any, at which a newer
    [performSearch] call runs [this.abortController.abort()] on the
    controller of the search under way; and [String(v)], used for the
    message of [new Error(response.error)]. *)
Variable network : Z -> string -> NetBehaviour.
Variable cancelAt : option Z.
Variable ToString : JsonVal -> string.

(** [signal.abort()] on [this.abortController], if there is one. *)
Definition abortCurrent (w : World) : World :=
  match abortController w with
  | Some _ => set_abortController (Some (mkController true)) w
  | None => w
  end.

(** An [await] that takes [ms] milliseconds: the clock advances, the
    caller's cancellation runs if its time falls in the interval, and the
    recovery callbacks that have come due run, oldest first. *)
Definition elapse (ms : N) (w : World) : World :=
  let w1 := handle (Elapse ms) w in
  let w2 := match cancelAt with
            | Some t => if (clock w <? t) && (t <=? clock w1) then abortCurrent w1 else w1
            | None => w1
            end in
  Nat.iter (length (timers w2)) (handle TimerFires) w2.

(** [performance.now()], read off the same clock. *)
Definition performance_now : M float :=
  get (fun w => PrimFloat.of_uint63 (Uint63.of_Z (clock w))).

(** [await fetch(url, { signal })] where [signal] belongs to a controller
    that a timer aborts [abortAfter] ms after the call.  The request
    settles the way the network decides if that happens first, and rejects
    with [AbortError] otherwise. *)
Definition fetch (url : string) (abortAfter : Z) : M Response :=
  fun w =>
    let w := emit (EFetch url) w in
    let limit := Z.to_N abortAfter in
    match network (clock w) url with
    | NetHang => (Throw AbortError, elapse limit w)
    | NetError latency reason =>
        if (latency <? limit)%N
        then (Throw (mkError "TypeError" reason), elapse latency w)
        else (Throw AbortError, elapse limit w)
    | NetResponse latency r =>
        if (latency <? limit)%N
        then (Normal r, elapse latency w)
        else (Throw AbortError, elapse limit w)
    end.

(** [await response.json()].  The body is taken to arrive, after
    [bodyTime r] ms: the timer of [fetchFromWorker] is cleared before the
    body is read, so a body that never ends would leave the call waiting. *)
Definition json (r : Response) : M JsonVal :=
  fun w =>
    match body r with
    | Some data => (Normal data, elapse (bodyTime r) w)
    | None => (Throw (mkError "SyntaxError" "Unexpected token in JSON"), elapse (bodyTime r) w)
    end.

(** [fetchFromWorker(workerUrl, endpoint, params)] (settings.js 1421-1458);
    [params] stands for [params.toString()].  The signal handed to [fetch]
    is the one of the local [controller], which only the
    [this.config.requestTimeout] timer aborts. *)
Definition fetchFromWorker (workerUrl endpoint params : string) : M JsonVal :=
  let url := workerUrl +:+ endpoint +:+ "?" +:+ params in
  try_catch
    (response <- fetch url (requestTimeout cfg) ;;
     if negb (ok response)
     then throw (Error ("HTTP " +:+ pretty (status response) +:+ ": " +:+ statusText response))
     else
       data <- json response ;;
       if invalidPayload data
       then throw (Error "Empty response from worker")
       else ret data)
    (fun error => throw error).

(** [delay(ms)]: a promise resolved by [setTimeout(resolve, ms)]. *)
Definition delay (ms : Z) : M unit :=
  call (fun w => elapse (Z.to_N ms) (emit (EDelay ms) w)).

(** The body of the [for (const worker of workers)] loop (settings.js
    1393-1406): [Some response] stands for [return response], [None] for
    [continue]. *)
Definition tryWorker (endpoint params worker : string) : M (option JsonVal) :=
  try_catch
    (startTime <- performance_now ;;
     response <- fetchFromWorker worker endpoint params ;;
     endTime <- performance_now ;;
     let responseTime := (endTime - startTime)%float in
     call (updateWorkerStatus worker true responseTime) ;;;
     ret (Some response))
    (fun error =>
       call (updateWorkerStatus worker false 0%float) ;;;
       ret None).

(** The loop itself. *)
Fixpoint forWorkers (endpoint params : string) (workers : list string)
    : M (option JsonVal) :=
  match workers with
  | [] => ret None
  | worker :: rest =>
      r <- tryWorker endpoint params worker ;;
      match r with
      | Some response => ret (Some response)
      | None => forWorkers endpoint params rest
      end
  end.

(** The state in which the loop reaches the worker listed after [workers]
    when none of these has made it return: the loop body has run on each of
    them in turn. *)
Definition afterAttempts (endpoint params : string) (workers : list string) (w : World)
    : World :=
  foldl (fun v worker => snd (tryWorker endpoint params worker v)) w workers.

(** The outer [try] block (settings.js 1388-1409): one sweep. *)
Definition sweep (endpoint params : string) : M JsonVal :=
  r <- forWorkers endpoint params (workerList ws) ;;
  match r with
  | Some response => ret response
  | None => throw (Error "All workers failed")
  end.

(** [fetchWithFallback] with the number of recursive calls still allowed
    by [retries < maxRetries] made explicit. *)
Fixpoint fetchWithFallback_from (budget : nat) (endpoint params : string) (retries : Z)
    : M JsonVal :=
  try_catch (sweep endpoint params)
    (fun error =>
       match budget with
       | S budget' =>
           delay (1000 * (retries + 1)) ;;;
           fetchWithFallback_from budget' endpoint params (retries + 1)
       | O => throw error
       end).

(** [fetchWithFallback(endpoint, params, retries = 0)] (settings.js
    1385-1419).  [fetchWithFallback_unfold] below is its source text. *)
Definition fetchWithFallback (endpoint params : string) (retries : Z) : M JsonVal :=
  fetchWithFallback_from (Z.to_nat (maxRetries cfg - retries)) endpoint params retries.

(** [executeSearch] from the call of [fetchWithFallback] on (settings.js
    1364-1382).  The request ([endpoint], [params.toString()]) is taken as
    built; [Processed response] stands for [this.processResponse(response)]. *)
Definition executeSearch (endpoint params : string) : M UiOutcome :=
  try_catch
    (response <- fetchWithFallback endpoint params 0 ;;
     match property "error" response with
     | Some err =>
         if truthy err then throw (Error (ToString err)) else ret (Processed response)
     | None => ret (Processed response)
     end)
    (fun error =>
       if includes "CORS" (message error) || includes "NetworkError" (message error)
       then ret CorsErrorShown
       else ret (ErrorShown "Search failed. Please try again.")).

(** [performSearch] (settings.js 1302-1337); [searchQuery] is the trimmed
    query, and the request built from it by [executeSearch] is given. *)
Definition performSearch (searchQuery endpoint params : string) : M UiOutcome :=
  if String.eqb searchQuery EmptyString
  then ret EmptyState
  else
    call abortCurrent ;;;
    call (set_abortController (Some (mkController false))) ;;;
    try_catch
      (executeSearch endpoint params)
      (fun error =>
         if String.eqb (name error) "AbortError"
         then ret CancelledLogged
         else ret (ErrorShown ("Search failed: " +:+ message error))).

End Controller.

(** ** Reading a trace *)

Definition fetchedUrls (tr : list Effect) : list string :=
  omap (fun e => match e with EFetch url => Some url | _ => None end) tr.

Definition recorded (tr : list Effect) : list (string * bool) :=
  omap (fun e => match e with ERecord url s => Some (url, s) | _ => None end) tr.

Definition delays (tr : list Effect) : list Z :=
  omap (fun e => match e with EDelay ms => Some ms | _ => None end) tr.

(** The URL [fetchFromWorker] builds for [worker]. *)
Definition urlOf (endpoint params worker : string) : string :=
  worker +:+ endpoint +:+ "?" +:+ params.

(** The ways one attempt can go wrong, read off [fetchFromWorker]: the
    request hangs or is slower than the per-call timeout, the connection
    fails, the status is outside 200-299, the body is not JSON, or the parsed
    payload is falsy or an empty object. *)
Definition failing (timeout : Z) (b : NetBehaviour) : bool :=
  match b with
  | NetHang => true
  | NetError _ _ => true
  | NetResponse latency r =>
      negb (latency <? Z.to_N timeout)%N
      || negb (ok r)
      || match body r with
         | None => true
         | Some data => invalidPayload data
         end
  end.

(** The effects of a failed attempt on [worker], and of a run of them. *)
Definition failedAttempt (endpoint params worker : string) : list Effect :=
  [EFetch (urlOf endpoint params worker); ERecord worker false].

Definition failedAttempts (endpoint params : string) (workers : list string) : list Effect :=
  concat (failedAttempt endpoint params <$> workers).

(** The effects of a successful attempt on [worker]. *)
Definition successfulAttempt (endpoint params worker : string) : list Effect :=
  [EFetch (urlOf endpoint params worker); ERecord worker true].

(** Retry sweeps number [N], [N + 1], ..., each after its backoff wait. *)
Fixpoint withBackoff (N : Z) (retrySweeps : list (list Effect)) : list Effect :=
  match retrySweeps with
  | [] => []
  | s :: rest => EDelay (1000 * N) :: s ++ withBackoff (N + 1) rest
  end.

(** The effects of a whole call: the first sweep, then the retry sweeps
    numbered from [retries + 1]. *)
Definition runEffects (retries : Z) (sweeps : list (list Effect)) : list Effect :=
  match sweeps with
  | [] => []
  | s0 :: rest => s0 ++ withBackoff (retries + 1) rest
  end.



(** The attempt on [worker] fails when it is made in state [v]. *)
Definition attemptFails (cfg : Config) (network : Z -> string -> NetBehaviour)
    (endpoint params worker : string) (v : World) : bool :=
  failing (requestTimeout cfg) (network (clock v) (urlOf endpoint params worker)).

(** In a sweep started in state [w], each of [workers] fails when its turn
    comes. *)
Definition allFail (cfg : Config) (network : Z -> string -> NetBehaviour)
    (cancelAt : option Z) (endpoint params : string) (workers : list string)
    (w : World) : Prop :=
  ∀ i worker, workers !! i = Some worker →
    attemptFails cfg network endpoint params worker
      (afterAttempts cfg network cancelAt endpoint params (take i workers) w) = true.

(** Two worlds that differ at most in the health map and the pending
    recovery callbacks. *)
Definition sameOutsideHealth (w1 w2 : World) : Prop :=
  clock w1 = clock w2 ∧ trace w1 = trace w2 ∧ abortController w1 = abortController w2.

(** Code whose result and whose effects outside the health map do not
    depend on the health map. *)
Definition HealthBlind {A} (m : M A) : Prop :=
  ∀ w1 w2, sameOutsideHealth w1 w2 →
    fst (m w1) = fst (m w2) ∧ sameOutsideHealth (snd (m w1)) (snd (m w2)).

(** The network oracles used in the examples. *)
Definition allHang : Z -> string -> NetBehaviour := fun _ _ => NetHang.

Definition okResponse (data : JsonVal) : Response := mkResponse 200 "OK" 1 (Some data).

(** The payload of the spec's round-trip example, [{results: ["ok"]}]. *)
Definition echoPayload : JsonVal := JObj [("results", JArr [JStr "ok"])].

(** Only the third worker of the constructor's list answers; connections to
    the others fail after 30 ms. *)
Definition thirdAnswers : Z -> string -> NetBehaviour :=
  fun _ url =>
    if String.eqb url "https://proxy2.yoohoo.workers.dev/search?q=cats"
    then NetResponse 120 (okResponse echoPayload)
    else NetError 30 "Failed to fetch".

(** A [String(v)] for runs in which no payload carries an [error] field. *)
Definition noErrorField : JsonVal -> string := fun _ => "error".

End Orchestrator.

(** * The rest of the controller and of the settings manager

    Strings.  A JavaScript string is a sequence of 16-bit code units.  Where
    the code only concatenates or compares strings the model uses Rocq's
    [string]; [length] and [substring] then count code units, which [string]
    provides up to 255.  The checksum reads code units as numbers
    ([charCodeAt]) and takes them as a list of integers. *)

(** ** The search history *)

Module History.

(** The object literal built by [addToHistory]. *)
Record HistoryEntry := mkEntry {
  query : string;
  category : string;
  timestamp : string;
  worker : Z
}.

(** [this.searchHistory] and the browser's [localStorage]. *)
Record Store := mkStore {
  searchHistory : list HistoryEntry;
  localStorage : gmap string string
}.

(** [Array.prototype.pop] as a statement: the last element goes. *)
Definition pop {A} (l : list A) : list A := removelast l.

(** What one call is given: the query, [this.currentCategory],
    [new Date().toISOString()] and [this.workers.currentIndex]. *)
Record Search := mkSearch {
  s_query : string;
  s_category : string;
  s_now : string;
  s_currentIndex : Z
}.

Section AddToHistory.

(** [JSON.stringify] on the history array. *)
Variable stringify : list HistoryEntry -> string.

(** [addToHistory(query)] (settings.js 1902-1918): [unshift], one [pop] when
    the array has grown beyond 50, then the write to [localStorage] (taken to
    succeed). *)
Definition addToHistory (c : Search) (s : Store) : Store :=
  let searchEntry := mkEntry (s_query c) (s_category c) (s_now c) (s_currentIndex c) in
  let h := searchEntry :: searchHistory s in
  let h := if (50 <? length h)%nat then pop h else h in
  mkStore h (<["searchHistory" := stringify h]> (localStorage s)).

(** Searches made one after the other. *)
Definition addAll (cs : list Search) (s : Store) : Store :=
  foldl (fun acc c => addToHistory c acc) s cs.

End AddToHistory.

(** The entry a search leaves. *)
Definition entryOf (c : Search) : HistoryEntry :=
  mkEntry (s_query c) (s_category c) (s_now c) (s_currentIndex c).

(** The constructor's [this.searchHistory = []] over a given storage. *)
Definition freshStore (storage : gmap string string) : Store := mkStore [] storage.

End History.

(** ** The settings checksum *)

Module Checksum.

(** [ToInt32]: reduction modulo 2^32 into [-2^31, 2^31). *)
Definition toInt32 (z : Z) : Z := (z + 2 ^ 31) mod 2 ^ 32 - 2 ^ 31.

(** [a << n] on numbers holding integers. *)
Definition shiftLeft (a n : Z) : Z := toInt32 (Z.shiftl (toInt32 a) (n mod 32)).

(** [a & b] on numbers holding integers. *)
Definition bitAnd (a b : Z) : Z := Z.land (toInt32 a) (toInt32 b).

(** The loop body of [generateChecksum] (settings.js 541-543).  The
    subtraction and the addition are number arithmetic; they are exact, see
    [step_arithmetic_exact]. *)
Definition step (hash char : Z) : Z :=
  let hash := (shiftLeft hash 5 - hash) + char in
  bitAnd hash hash.

(** The [for] loop over the code units of [str], from [hash = 0]. *)
Definition hashLoop (str : list Z) : Z := foldl step 0 str.

(** [hash.toString(16)] for an integer: lower-case digits, a minus sign for
    negative numbers. *)
Definition toString16 (z : Z) : string :=
  match z with
  | Z0 => "0"
  | Zpos p => HexString.Raw.of_pos p EmptyString
  | Zneg p => "-" +:+ HexString.Raw.of_pos p EmptyString
  end.

Section Settings.

(** The settings object and [JSON.stringify] on it, as code units. *)
Variable Settings : Type.
Variable stringify : Settings -> list Z.

(** [generateChecksum()] (settings.js 536-547). *)
Definition generateChecksum (currentSettings : Settings) : string :=
  toString16 (hashLoop (stringify currentSettings)).

End Settings.

(** The polynomial the loop evaluates: [c0 * 31^(n-1) + ... + c(n-1)]. *)
Definition polynomial (str : list Z) : Z := foldl (fun acc c => 31 * acc + c) 0 str.

(** The values binary64 holds exactly. *)
Definition exactInteger (z : Z) : Prop := - 2 ^ 53 <= z <= 2 ^ 53.

End Checksum.

(** ** Display helpers of the search controller *)

Module Formatting.

(** [s.padStart(2, '0')] *)
Definition padStart2 (s : string) : string :=
  match String.length s with
  | O => "00"
  | S O => "0" +:+ s
  | _ => s
  end.

(** [formatDuration(seconds)] (settings.js 2246-2256) on a whole number of
    seconds of magnitude below 2^53: [%] is the remainder that takes the
    sign of the dividend, and [Math.floor(a / b)] is floor division.  The
    code divides in binary64; below 2^53 the quotient by 3600 is off by less
    than 1/3600, so that its floor is the one computed here.  Larger numbers
    are outside this definition. *)
Definition formatDuration (seconds : Z) : string :=
  if seconds =? 0 then EmptyString
  else
    let hours := seconds / 3600 in
    let minutes := Z.rem seconds 3600 / 60 in
    let secs := Z.rem seconds 60 in
    if 0 <? hours
    then pretty hours +:+ ":" +:+ padStart2 (pretty minutes) +:+ ":" +:+ padStart2 (pretty secs)
    else pretty minutes +:+ ":" +:+ padStart2 (pretty secs).

(** [`${n} unit${n > 1 ? 's' : ''} ago`] *)
Definition ago (n : Z) (unit : string) : string :=
  pretty n +:+ " " +:+ unit +:+ (if 1 <? n then "s" else EmptyString) +:+ " ago".

Section RelativeTime.

(** [new Date(dateString)] as milliseconds since the epoch ([None]: an
    invalid date), and [date.toLocaleDateString()]. *)
Variable parseDate : string -> option Z.
Variable toLocaleDateString : Z -> string.

(** [formatRelativeTime(dateString)] (settings.js 2258-2280); [now] is the
    reading of [new Date()].  With an invalid date every difference is [NaN]
    and every comparison fails. *)
Definition formatRelativeTime (now : Z) (dateString : string) : string :=
  if String.eqb dateString EmptyString then EmptyString
  else
    match parseDate dateString with
    | None => "Just now"
    | Some date =>
        let diffMs := now - date in
        let diffSec := diffMs / 1000 in
        let diffMin := diffSec / 60 in
        let diffHour := diffMin / 60 in
        let diffDay := diffHour / 24 in
        if 30 <? diffDay then toLocaleDateString date
        else if 0 <? diffDay then ago diffDay "day"
        else if 0 <? diffHour then ago diffHour "hour"
        else if 0 <? diffMin then ago diffMin "minute"
        else "Just now"
    end.

End RelativeTime.

(** [shortenUrl(url, maxLength = 50)] (settings.js 2229-2232) *)
Definition shortenUrl (url : string) (maxLength : Z) : string :=
  if Z.of_nat (String.length url) <=? maxLength then url
  else String.substring 0 (Z.to_nat maxLength) url +:+ "...".

(** [truncateText(text, maxLength)] (settings.js 2234-2238) *)
Definition truncateText (text : string) (maxLength : Z) : string :=
  if String.eqb text EmptyString then EmptyString
  else if Z.of_nat (String.length text) <=? maxLength then text
  else String.substring 0 (Z.to_nat maxLength) text +:+ "...".

End Formatting.

(** ** Which section is shown *)

Module Sections.

(** The [classList] of the five section elements. *)
Record Elements := mkElements {
  heroSection : gset string;
  resultsSection : gset string;
  imagesSection : gset string;
  videosSection : gset string;
  newsSection : gset string
}.

(** [classList.add('hidden')] and [classList.remove('hidden')] *)
Definition addHidden (classList : gset string) : gset string := classList ∪ {["hidden"]}.
Definition removeHidden (classList : gset string) : gset string := classList ∖ {["hidden"]}.

(** [showSection(section)] (settings.js 1643-1666) *)
Definition showSection (section : string) (e : Elements) : Elements :=
  let e := mkElements (addHidden (heroSection e)) (addHidden (resultsSection e))
             (addHidden (imagesSection e)) (addHidden (videosSection e))
             (addHidden (newsSection e)) in
  if String.eqb section "results" then
    mkElements (heroSection e) (removeHidden (resultsSection e)) (imagesSection e)
      (videosSection e) (newsSection e)
  else if String.eqb section "images" then
    mkElements (heroSection e) (resultsSection e) (removeHidden (imagesSection e))
      (videosSection e) (newsSection e)
  else if String.eqb section "videos" then
    mkElements (heroSection e) (resultsSection e) (imagesSection e)
      (removeHidden (videosSection e)) (newsSection e)
  else if String.eqb section "news" then
    mkElements (heroSection e) (resultsSection e) (imagesSection e)
      (videosSection e) (removeHidden (newsSection e))
  else e.

(** The five class lists of [e]. *)
Definition classLists (e : Elements) : list (gset string) :=
  [heroSection e; resultsSection e; imagesSection e; videosSection e; newsSection e].

End Sections.

(** ** Browser storage and the settings manager *)

Module Storage.

(** The property names defined by [Storage.prototype] and by
    [Object.prototype].  An item stored under such a name is hidden behind
    the member of that name: it is no own property of [localStorage]. *)
Definition prototypeNames : list string :=
  [ "length"; "key"; "getItem"; "setItem"; "removeItem"; "clear";
    "constructor"; "hasOwnProperty"; "isPrototypeOf"; "propertyIsEnumerable";
    "toLocaleString"; "toString"; "valueOf"; "__proto__";
    "__defineGetter__"; "__defineSetter__"; "__lookupGetter__"; "__lookupSetter__" ].

(** [Object.keys(localStorage)]: the keys of the stored items that are own
    properties. *)
Definition objectKeys (localStorage : gmap string string) : list string :=
  List.filter (fun key => negb (bool_decide (key ∈ prototypeNames)))
              (elements (dom localStorage)).

(** [Utils.clearLocalStorageByPrefix(prefix)] (unnamed/part_000 580-584):
    [removeItem] on every key of [Object.keys(localStorage)] that
    [startsWith] the prefix. *)
Definition clearLocalStorageByPrefix (prefix : string) (localStorage : gmap string string)
    : gmap string string :=
  foldl (fun acc key => delete key acc) localStorage
        (List.filter (fun key => String.prefix prefix key) (objectKeys localStorage)).

(** [localStorage] and [sessionStorage]. *)
Record Browser := mkBrowser {
  localStorage : gmap string string;
  sessionStorage : gmap string string
}.

(** [clearCache()] of the settings manager (settings.js 560-573) on a page
    without [window.searchService]. *)
Definition clearCache (b : Browser) : Browser :=
  mkBrowser (clearLocalStorageByPrefix "search_" (localStorage b)) ∅.

(** The state of a [SettingsManager] as far as [migrate] goes: the own
    properties of [this.currentSettings], a plain object, and the storage. *)
Record Manager := mkManager {
  currentSettings : gmap string Orchestrator.JsonVal;
  stored : gmap string string
}.

(** [!this.currentSettings[key]] *)
Definition unset (key : string) (settings : gmap string Orchestrator.JsonVal) : bool :=
  match settings !! key with
  | Some v => negb (Orchestrator.truthy v)
  | None => true
  end.

(** [localStorage.getItem('settingsVersion') || '1.0.0'] *)
Definition settingsVersion (storage : gmap string string) : string :=
  match storage !! "settingsVersion" with
  | Some v => if String.eqb v EmptyString then "1.0.0" else v
  | None => "1.0.0"
  end.

(** [migrate()] (settings.js 477-495); the write to [localStorage] is taken
    to succeed.  The settings are changed in memory only. *)
Definition migrate (m : Manager) : Manager :=
  let version := settingsVersion (stored m) in
  if String.eqb version "1.0.0" then
    let s := currentSettings m in
    let s := if unset "searchEngine" s
             then <["searchEngine" := Orchestrator.JStr "worker"]> s else s in
    let s := if unset "keyboardShortcuts" s
             then <["keyboardShortcuts" := Orchestrator.JBool true]> s else s in
    mkManager s (<["settingsVersion" := "1.1.0"]> (stored m))
  else m.

End Storage.

(** ** Search suggestions *)

Module Suggestions.

Import Tracker Orchestrator.

(** The [DOMException] with which a request is rejected when the signal of
    [AbortSignal.timeout] fires (the message text differs between browsers). *)
Definition TimeoutError : JsError := mkError "TimeoutError" "The operation timed out.".

(** What [showSuggestions] leaves of the dropdown: nothing touched (early
    return), the old dropdown removed, or a new one with these items. *)
Inductive Dropdown :=
| Untouched
| Removed
| Shown (items : list JsonVal).

(** [[...new Set(xs)]]: first occurrences, in order of insertion. *)
Definition uniq (xs : list string) : list string :=
  foldl (fun seen x => if decide (x ∈ seen) then seen else seen ++ [x]) [] xs.

(** The array literal of generated phrases (settings.js 1808-1815). *)
Definition phrases (query : string) : list string :=
  [ query +:+ " meaning"; query +:+ " definition"; query +:+ " examples";
    query +:+ " tutorial"; "what is " +:+ query; "how to " +:+ query ].

Section FetchSuggestions.

Variable ws : Workers.
Variable network : Z -> string -> NetBehaviour.
Variable cancelAt : option Z.

(** [encodeURIComponent] and [String.prototype.toLowerCase]. *)
Variable encodeURIComponent : string -> string.
Variable toLowerCase : string -> string.

(** [await fetch(url, { signal: AbortSignal.timeout(ms), mode: 'cors' })]:
    the response and the time left on the signal. *)
Definition fetchWithin (url : string) (ms : N) : M (Response * N) :=
  fun w =>
    let w := emit (EFetch url) w in
    match network (clock w) url with
    | NetHang => (Throw TimeoutError, elapse cancelAt ms w)
    | NetError latency reason =>
        if (latency <? ms)%N
        then (Throw (mkError "TypeError" reason), elapse cancelAt latency w)
        else (Throw TimeoutError, elapse cancelAt ms w)
    | NetResponse latency r =>
        if (latency <? ms)%N
        then (Normal (r, (ms - latency)%N), elapse cancelAt latency w)
        else (Throw TimeoutError, elapse cancelAt ms w)
    end.

(** [await response.json()] while the signal of the request is still armed. *)
Definition jsonWithin (r : Response) (left : N) : M JsonVal :=
  fun w =>
    if (bodyTime r <? left)%N
    then match body r with
         | Some data => (Normal data, elapse cancelAt (bodyTime r) w)
         | None => (Throw (mkError "SyntaxError" "Unexpected token in JSON"),
                    elapse cancelAt (bodyTime r) w)
         end
    else (Throw TimeoutError, elapse cancelAt left w).

(** [data.suggestions.slice(0, 8)]: arrays and strings have [slice], other
    values do not. *)
Definition slice8 (suggestions : JsonVal) : M JsonVal :=
  match suggestions with
  | JArr items => ret (JArr (take 8 items))
  | JStr s => ret (JStr (String.substring 0 8 s))
  | _ => throw (mkError "TypeError" "data.suggestions.slice is not a function")
  end.

(** The URL asked for suggestions. *)
Definition suggestUrl (query worker : string) : string :=
  worker +:+ "/suggest?q=" +:+ encodeURIComponent query.

(** The body of the loop over the workers (settings.js 1784-1798):
    [Some s] stands for [return s], [None] for going on to the next worker. *)
Definition suggestFrom (query worker : string) : M (option JsonVal) :=
  try_catch
    (reply <- fetchWithin (suggestUrl query worker) 2000 ;;
     if ok (fst reply)
     then
       data <- jsonWithin (fst reply) (snd reply) ;;
       match data with
       | JNull => throw (mkError "TypeError" "Cannot read properties of null")
       | _ =>
           match property "suggestions" data with
           | Some suggestions =>
               if truthy suggestions
               then s <- slice8 suggestions ;; ret (Some s)
               else ret None
           | None => ret None
           end
       end
     else ret None)
    (fun error => ret None).

Fixpoint suggestLoop (query : string) (workers : list string) : M (option JsonVal) :=
  match workers with
  | [] => ret None
  | worker :: rest =>
      r <- suggestFrom query worker ;;
      match r with
      | Some s => ret (Some s)
      | None => suggestLoop query rest
      end
  end.


(** The queries of the history that contain [query], case put aside, at
    most five. *)
Definition historySuggestions (history : list History.HistoryEntry) (query : string)
    : list string :=
  take 5 (History.query <$>
            List.filter (fun entry => includes (toLowerCase query)
                                        (toLowerCase (History.query entry)))
                        history).

(** The first three generated phrases. *)
Definition related (query : string) : list string := take 3 (phrases query).

(** The local answer (settings.js 1801-1817). *)
Definition localSuggestions (history : list History.HistoryEntry) (query : string)
    : list string :=
  take 8 (uniq (historySuggestions history query ++ related query)).

(** [fetchSuggestions(query)] (settings.js 1779-1818); [history] is
    [this.searchHistory] as the loop finds it when it ends. *)
Definition fetchSuggestions (history : list History.HistoryEntry) (query : string)
    : M JsonVal :=
  r <- suggestLoop query (workerList ws) ;;
  match r with
  | Some s => ret s
  | None => ret (JArr (JStr <$> localSuggestions history query))
  end.

(** [displaySuggestions(suggestions)] as far as it can fail: [forEach]
    exists on arrays only. *)
Definition displaySuggestions (suggestions : JsonVal) : M Dropdown :=
  match suggestions with
  | JArr items => ret (Shown items)
  | _ => throw (mkError "TypeError" "suggestions.forEach is not a function")
  end.

(** [suggestions.length > 0] *)
Definition nonEmpty (suggestions : JsonVal) : bool :=
  match suggestions with
  | JArr items => negb (Nat.eqb (length items) 0)
  | JStr s => negb (Nat.eqb (String.length s) 0)
  | _ => false
  end.

(** [showSuggestions(query)] (settings.js 1763-1777) *)
Definition showSuggestions (history : list History.HistoryEntry) (query : string)
    : M Dropdown :=
  if (String.length query <? 2)%nat then ret Untouched
  else
    try_catch
      (suggestions <- fetchSuggestions history query ;;
       if nonEmpty suggestions
       then displaySuggestions suggestions
       else ret Removed)
      (fun error => ret Removed).

End FetchSuggestions.

(** What a worker's reply offers as suggestions, if anything: a success
    status, a body read before the two seconds are over, and in it a
    [suggestions] field holding an array or a non-empty string. *)
Definition offered (b : NetBehaviour) : option JsonVal :=
  match b with
  | NetResponse latency r =>
      if (latency <? 2000)%N && ok r && (bodyTime r <? 2000 - latency)%N
      then match body r with
           | Some (JObj fields) =>
               match lookupField "suggestions" fields with
               | Some (JArr items) => Some (JArr (take 8 items))
               | Some (JStr s) =>
                   if String.eqb s EmptyString then None
                   else Some (JStr (String.substring 0 8 s))
               | _ => None
               end
           | _ => None
           end
      else None
  | _ => None
  end.




End Suggestions.

(** ** Start-up and settings of the search controller *)

Module Startup.

Import Tracker Orchestrator.

(** The value of an expression that may be [undefined]. *)
Definition JsValue := option JsonVal.

(** [a || b] *)
Definition orElse (a b : JsValue) : JsValue :=
  match a with
  | Some v => if truthy v then a else b
  | None => b
  end.

(** What an object inherits from: [Object.prototype], as an object literal
    does; nothing; or an object or array made by [JSON.parse], which itself
    inherits from the standard prototype of its kind. *)
Inductive Prototype :=
| ObjectPrototype
| NoPrototype
| Parsed (v : JsonVal).

(** An object: its own properties, each holding a value or [undefined], and
    its prototype. *)
Record JsObject := mkObject {
  own : gmap string JsValue;
  prototype : Prototype
}.

(** The own properties that hold a value.  [JSON.stringify] sees these and
    no others. *)
Definition defined (o : JsObject) : gmap string JsonVal := omap id (own o).

(** [o[key]] for a key that is no array index, is not [length] and is not
    defined by the standard prototypes: the own property, or else the
    property of the object inherited from. *)
Definition getProperty (key : string) (o : JsObject) : JsValue :=
  match own o !! key with
  | Some value => value
  | None =>
      match prototype o with
      | Parsed v => property key v
      | _ => None
      end
  end.

(** [o[key] = value] for a key other than [__proto__]: the standard
    prototypes define data properties only, so the assignment makes or
    updates an own property. *)
Definition setProperty (key : string) (value : JsValue) (o : JsObject) : JsObject :=
  mkObject (<[key := value]> (own o)) (prototype o).

(** Whether a lookup of [__proto__] from [o] ends at the accessor of
    [Object.prototype]: [o] has no own property of that name, some prototype,
    and no parsed object in between with a field of that name. *)
Definition reachesAccessor (o : JsObject) : bool :=
  match own o !! "__proto__" with
  | Some _ => false
  | None =>
      match prototype o with
      | ObjectPrototype => true
      | NoPrototype => false
      | Parsed (JObj fields) =>
          match lookupField "__proto__" fields with
          | Some _ => false
          | None => true
          end
      | Parsed _ => true
      end
  end.

(** The setter of [Object.prototype.__proto__]: an object or [null] becomes
    the prototype, any other value is ignored. *)
Definition setPrototype (value : JsonVal) (o : JsObject) : JsObject :=
  match value with
  | JObj _ | JArr _ => mkObject (own o) (Parsed value)
  | JNull => mkObject (own o) NoPrototype
  | _ => o
  end.

(** [o[key] = value] for any key. *)
Definition assignProperty (key : string) (value : JsonVal) (o : JsObject) : JsObject :=
  if String.eqb key "__proto__" && reachesAccessor o
  then setPrototype value o
  else setProperty key (Some value) o.

(** The characters of a string, one string each. *)
Fixpoint characters (s : string) : list string :=
  match s with
  | EmptyString => []
  | String c rest => String c EmptyString :: characters rest
  end.

(** The own enumerable properties of a parsed value, in order: the fields
    of an object, the elements of an array and the characters of a string
    under their indices. *)
Definition ownProperties (v : JsonVal) : list (string * JsonVal) :=
  match v with
  | JObj fields => fields
  | JArr items => imap (fun i x => (pretty i, x)) items
  | JStr s => imap (fun i c => (pretty i, JStr c)) (characters s)
  | _ => []
  end.

(** [Object.assign(target, source)]: each own property of [source] is
    assigned to [target], in order. *)
Definition assign (target : JsObject) (source : JsonVal) : JsObject :=
  foldl (fun acc kv => assignProperty (fst kv) (snd kv) acc) target (ownProperties source).

(** The part of a [SearchController] that start-up and settings touch:
    [this.config], [this.workers.primary] (any value once loaded from
    storage), [this.workers.fallbacks], the health map and the storage. *)
Record Controller := mkController' {
  configObject : JsObject;
  primaryUrl : JsonVal;
  fallbackUrls : list string;
  health : World;
  storage : gmap string string;
  warnings : list string
}.

(** The own properties of [this.config] that hold a value. *)
Definition config (c : Controller) : gmap string JsonVal := defined (configObject c).

(** [this.config] as the constructor sets it (settings.js 1111-1120). *)
Definition defaultConfigObject : gmap string JsonVal :=
  list_to_map
    [ ("safeSearch", JStr "moderate"); ("language", JStr "en"); ("aiEnabled", JBool true);
      ("resultsPerPage", JNum 10%float); ("searchProvider", JStr "all");
      ("useWorkerFallback", JBool true); ("maxRetries", JNum 3%float);
      ("requestTimeout", JNum 15000%float) ].

Section StartupCode.

(** [JSON.parse] ([None]: a [SyntaxError]) and [JSON.stringify] on the
    configuration object. *)
Variable parse : string -> option JsonVal.
Variable stringify : gmap string JsonVal -> string.

(** The [try] block of [loadConfig] (settings.js 1196-1204).  The class has
    no method [updateWorkerHealth]: calling it throws a [TypeError]. *)
Definition loadConfigBody (saved : string) (c : Controller) : Completion unit * Controller :=
  match parse saved with
  | None => (Throw (mkError "SyntaxError" "Unexpected token in JSON"), c)
  | Some loadedConfig =>
      let c := mkController' (assign (configObject c) loadedConfig) (primaryUrl c)
                 (fallbackUrls c) (health c) (storage c) (warnings c) in
      match loadedConfig with
      | JNull => (Throw (mkError "TypeError" "Cannot read properties of null"), c)
      | _ =>
          match property "workerUrl" loadedConfig with
          | Some workerUrl =>
              if truthy workerUrl
              then
                let c := mkController' (configObject c) workerUrl (fallbackUrls c) (health c)
                           (storage c) (warnings c) in
                (Throw (mkError "TypeError" "this.updateWorkerHealth is not a function"), c)
              else (Normal tt, c)
          | None => (Normal tt, c)
          end
      end
  end.

(** [loadConfig()] (settings.js 1193-1209): whatever the [try] block throws
    is caught and reported with [console.warn]. *)
Definition loadConfig (c : Controller) : Controller :=
  match storage c !! "searchConfig" with
  | None => c
  | Some saved =>
      if String.eqb saved EmptyString then c
      else
        match loadConfigBody saved c with
        | (Normal _, c') => c'
        | (Throw e, c') =>
            mkController' (configObject c') (primaryUrl c') (fallbackUrls c') (health c')
              (storage c') (warnings c' ++ ["Failed to load config:"])
        end
  end.

(** The constructor and [init()] up to [loadConfig] (settings.js
    1097-1154); [now] is the clock, [localStorage] the storage found. *)
Definition construct (now : Z) (localStorage : gmap string string) : Controller :=
  loadConfig
    (mkController' (mkObject (Some <$> defaultConfigObject) ObjectPrototype)
       (JStr (primary defaultWorkers))
       (fallbacks defaultWorkers) (startWorld defaultWorkers now) localStorage []).

(** [saveConfig()] (settings.js 1211-1213), the write taken to succeed. *)
Definition saveConfig (c : Controller) : Controller :=
  mkController' (configObject c) (primaryUrl c) (fallbackUrls c) (health c)
    (<["searchConfig" := stringify (config c)]> (storage c)) (warnings c).

(** [settings.search.useWorkerFallback !== false] *)
Definition notFalse (v : JsValue) : JsonVal :=
  match v with
  | Some (JBool false) => JBool false
  | _ => JBool true
  end.

(** A section of the settings object, when it is truthy. *)
Definition section (name : string) (settings : list (string * JsonVal)) : option JsonVal :=
  match lookupField name settings with
  | Some s => if truthy s then Some s else None
  | None => None
  end.

(** [applySettings(settings)] (settings.js 1920-1939) for a [settings]
    object with the given fields. *)
Definition applySettings (settings : list (string * JsonVal)) (c : Controller) : Controller :=
  let cfg := configObject c in
  let cfg :=
    match section "search" settings with
    | Some search =>
        let cfg := setProperty "workerUrl"
                     (orElse (property "workerUrl" search) (getProperty "workerUrl" cfg)) cfg in
        let cfg := setProperty "safeSearch" (property "safeSearch" search) cfg in
        let cfg := setProperty "resultsPerPage" (property "resultsPerPage" search) cfg in
        let cfg := setProperty "searchProvider" (property "searchProvider" search) cfg in
        setProperty "useWorkerFallback"
          (Some (notFalse (property "useWorkerFallback" search))) cfg
    | None => cfg
    end in
  let cfg :=
    match section "general" settings with
    | Some general => setProperty "language" (property "language" general) cfg
    | None => cfg
    end in
  let cfg :=
    match section "advanced" settings with
    | Some advanced =>
        let cfg := setProperty "maxRetries"
                     (orElse (property "maxRetries" advanced) (Some (JNum 3%float))) cfg in
        setProperty "requestTimeout"
          (orElse (property "requestTimeout" advanced) (Some (JNum 15000%float))) cfg
    | None => cfg
    end in
  saveConfig (mkController' cfg (primaryUrl c) (fallbackUrls c) (health c) (storage c)
                (warnings c)).

End StartupCode.

End Startup.

(** * Properties of the health tracker *)

Module TrackerFacts.

Import Tracker.

(** ** Reading the map after one operation *)

Lemma lookup_updateWorkerStatus (url : string) (success : bool) (t : float) (w : World) :
  healthOf url (updateWorkerStatus url success t w) =
  let h := touch (clock w) (default (freshHealth (clock w)) (healthOf url w)) in
  Some (if success then onSuccess t h else onFailure h).
Proof.
  unfold healthOf, updateWorkerStatus.
  destruct success; cbn; by rewrite lookup_insert_eq.
Qed.

Lemma lookup_updateWorkerStatus_ne (url url' : string) (success : bool) (t : float) (w : World) :
  url ≠ url' →
  healthOf url' (updateWorkerStatus url success t w) = healthOf url' w.
Proof.
  intros Hne. unfold healthOf, updateWorkerStatus.
  destruct success; cbn; by rewrite lookup_insert_ne.
Qed.

Lemma lookup_initializeWorkerHealth (ws : Workers) (w : World) (url : string) :
  healthOf url (initializeWorkerHealth ws w) =
  if decide (url ∈ workerList ws) then Some (freshHealth 0) else healthOf url w.
Proof.
  unfold initializeWorkerHealth, healthOf.
  generalize (workerList ws) as l. intros l. revert w.
  induction l as [|x l IH]; intros w; cbn.
  - case_decide as H; [by apply elem_of_nil in H | done].
  - rewrite IH. cbn.
    destruct (decide (url ∈ l)) as [Hin|Hnin].
    + rewrite decide_True; [done | by right].
    + destruct (decide (url = x)) as [->|Hne].
      * rewrite decide_True; [by rewrite lookup_insert_eq | by left].
      * rewrite decide_False; [by rewrite lookup_insert_ne | ].
        intros [?|?]%elem_of_cons; done.
Qed.

(** Whether initialised or never seen, a worker starts from the default
    record as far as [updateWorkerStatus] is concerned. *)
Lemma startWorld_default (ws : Workers) (now : Z) (url : string) :
  touch now (default (freshHealth now) (healthOf url (startWorld ws now))) = freshHealth now.
Proof.
  unfold startWorld. rewrite lookup_initializeWorkerHealth.
  case_decide; reflexivity.
Qed.

Lemma clock_initializeWorkerHealth (ws : Workers) (w : World) :
  clock (initializeWorkerHealth ws w) = clock w.
Proof.
  unfold initializeWorkerHealth. generalize (workerList ws) as l.
  intros l. revert w. induction l as [|x l IH]; intros w; cbn; [done | by rewrite IH].
Qed.

Lemma clock_updateWorkerStatus (url : string) (success : bool) (t : float) (w : World) :
  clock (updateWorkerStatus url success t w) = clock w.
Proof. unfold updateWorkerStatus. by destruct success. Qed.

Lemma lookup_autoRecover (url : string) (w : World) :
  healthOf url (autoRecover url w) =
  (fun h => if healthy h then h else recovered h) <$> healthOf url w.
Proof.
  unfold autoRecover, healthOf.
  destruct (workerHealth w !! url) as [h|] eqn:E; cbn; [| by rewrite E].
  destruct (healthy h); cbn; [by rewrite E | by rewrite lookup_insert_eq].
Qed.

Lemma lookup_autoRecover_ne (url url' : string) (w : World) :
  url ≠ url' → healthOf url' (autoRecover url w) = healthOf url' w.
Proof.
  intros Hne. unfold autoRecover, healthOf.
  destruct (workerHealth w !! url) as [h|]; [| done].
  destruct (healthy h); cbn; [done | by rewrite lookup_insert_ne].
Qed.

(** ** Counters *)

Lemma countersWithin_handle (e : Event) (n : Z) (w : World) :
  0 ≤ n → countersWithin n w → countersWithin (n + 1) (handle e w).
Proof.
  intros Hn Hw url h. destruct e as [u success t | ms | ]; cbn.
  - destruct (decide (u = url)) as [->|Hne].
    + rewrite lookup_updateWorkerStatus. cbn. intros [= <-].
      destruct (healthOf url w) as [h0|] eqn:E; cbn.
      * destruct (Hw _ _ E) as [? ?]. destruct success; cbn; lia.
      * destruct success; cbn; lia.
    + rewrite lookup_updateWorkerStatus_ne by done.
      intros E. destruct (Hw _ _ E). lia.
  - intros E. destruct (Hw _ _ E). lia.
  - destruct (timers w) as [|[due u] rest] eqn:Et.
    + intros E. destruct (Hw _ _ E). lia.
    + destruct (due <=? clock w).
      * destruct (decide (u = url)) as [->|Hne].
        -- rewrite lookup_autoRecover. unfold healthOf at 1. cbn.
           destruct (workerHealth w !! url) as [h0|] eqn:E; cbn; [| done].
           intros [= <-]. destruct (Hw _ _ E).
           destruct (healthy h0); cbn; lia.
        -- rewrite lookup_autoRecover_ne by done.
           intros E. destruct (Hw url h E). lia.
      * intros E. destruct (Hw _ _ E). lia.
Qed.

Lemma countersWithin_run (es : list Event) (n : Z) (w : World) :
  0 ≤ n → countersWithin n w → countersWithin (n + Z.of_nat (length es)) (run es w).
Proof.
  revert n w. induction es as [|e es IH]; intros n w Hn Hw; cbn.
  - by rewrite Z.add_0_r.
  - replace (n + Z.of_nat (S (length es)))
      with ((n + 1) + Z.of_nat (length es)) by lia.
    apply IH; [lia | by apply countersWithin_handle].
Qed.

Lemma countersWithin_startWorld (ws : Workers) (now : Z) :
  countersWithin 0 (startWorld ws now).
Proof.
  intros url h. unfold startWorld. rewrite lookup_initializeWorkerHealth.
  case_decide; [| done]. intros [= <-]. cbn. lia.
Qed.

(** A counter never exceeds the number of events handled since start-up, so
    the integer arithmetic on it is exact in binary64 for any run shorter
    than 2^53 events. *)
Lemma counters_bounded_by_outcomes (ws : Workers) (now : Z) (es : list Event)
    (url : string) (h : WorkerHealth) :
  healthOf url (run es (startWorld ws now)) = Some h →
  errorCount h ≤ Z.of_nat (length es) ∧ successCount h ≤ Z.of_nat (length es).
Proof.
  intros E.
  destruct (countersWithin_run es 0 _ (Z.le_refl 0) (countersWithin_startWorld ws now) _ _ E).
  lia.
Qed.

(** ** The record an operation starts from, before and after *)

Lemma current_updateWorkerStatus (url : string) (success : bool) (t : float) (w : World) :
  current url (updateWorkerStatus url success t w) =
  (if success then onSuccess t else onFailure) (touch (clock w) (current url w)).
Proof.
  unfold current. rewrite lookup_updateWorkerStatus. by destruct success.
Qed.

Lemma current_updateWorkerStatus_ne (url url' : string) (success : bool) (t : float)
    (w : World) :
  url ≠ url' → current url' (updateWorkerStatus url success t w) = current url' w.
Proof.
  intros Hne. unfold current.
  by rewrite lookup_updateWorkerStatus_ne, clock_updateWorkerStatus.
Qed.

Lemma clock_autoRecover (url : string) (w : World) : clock (autoRecover url w) = clock w.
Proof.
  unfold autoRecover. destruct (workerHealth w !! url) as [h|]; [| done].
  by destruct (healthy h).
Qed.

Lemma current_autoRecover (url : string) (w : World) :
  current url (autoRecover url w) =
  if healthy (current url w) then current url w else recovered (current url w).
Proof.
  unfold current. rewrite lookup_autoRecover, clock_autoRecover.
  destruct (healthOf url w) as [h|]; cbn; [| done]. by destruct (healthy h).
Qed.

Lemma current_autoRecover_ne (url url' : string) (w : World) :
  url ≠ url' → current url' (autoRecover url w) = current url' w.
Proof.
  intros Hne. unfold current. by rewrite lookup_autoRecover_ne, clock_autoRecover.
Qed.

Lemma run_snoc (es : list Event) (e : Event) (w : World) :
  run (es ++ [e]) w = handle e (run es w).
Proof. unfold run. by rewrite foldl_app. Qed.

(** ** Floating-point facts used for the smoothed response time *)

Lemma float_zero_add (x : float) : x ≠ (-0)%float → (0 + x)%float = x.
Proof.
  intros Hx. apply Prim2SF_inj. rewrite add_spec. unfold SF64add.
  destruct (Prim2SF x) as [s| s | | s m e] eqn:E; cbn; try reflexivity.
  destruct s; [| reflexivity].
  exfalso. apply Hx. apply Prim2SF_inj. by rewrite E.
Qed.

Lemma float_neq (x y : float) : PrimFloat.eqb x y = false → PrimFloat.eqb x x = true → x ≠ y.
Proof. intros Hxy Hxx ->. congruence. Qed.

End TrackerFacts.

(** * The claims about the health tracker *)

Module HealthClaims.

Import Tracker TrackerFacts.

(** C3, as stated, fails: a single success with response time 100 on a
    freshly initialised record leaves [responseTime] at 30, not at 100; and a
    second success with response time 200 brings it to 81, not to
    [100 * 0.7 + 200 * 0.3 = 130]. *)
Lemma C3_single_success_is_not_the_sample :
  let p := primary defaultWorkers in
  let w1 := updateWorkerStatus p true 100%float (startWorld defaultWorkers 0) in
  let w2 := updateWorkerStatus p true 200%float w1 in
  (responseTime <$> healthOf p w1 = Some 30%float ∧ 30%float ≠ 100%float)
  ∧ (responseTime <$> healthOf p w2 = Some 81%float
     ∧ (100 * 0.7 + 200 * 0.3)%float = 130%float
     ∧ 81%float ≠ 130%float).
Proof.
  cbn zeta. split_and!.
  - rewrite lookup_updateWorkerStatus. cbn zeta.
    rewrite startWorld_default. vm_compute. reflexivity.
  - apply float_neq; vm_compute; reflexivity.
  - rewrite !lookup_updateWorkerStatus. cbn zeta.
    rewrite clock_updateWorkerStatus, startWorld_default. vm_compute. reflexivity.
  - vm_compute. reflexivity.
  - apply float_neq; vm_compute; reflexivity.
Qed.

(** C3 (amended).  Each success replaces the smoothed time by
    [prev * 0.7 + new * 0.3], where [prev] is the stored value, 0 for a
    record that is fresh or absent.  Hence one success with response time
    [t] on a fresh record yields [0 * 0.7 + t * 0.3], and two successes
    [t1], [t2] yield [(0 * 0.7 + t1 * 0.3) * 0.7 + t2 * 0.3]. *)
Theorem C3_smoothed_response_time :
  (∀ (w : World) (url : string) (t : float),
     responseTime <$> healthOf url (updateWorkerStatus url true t w)
     = Some (responseTime (current url w) * 0.7 + t * 0.3)%float)
  ∧ (∀ (ws : Workers) (now : Z) (url : string) (t : float),
       responseTime <$> healthOf url (updateWorkerStatus url true t (startWorld ws now))
       = Some (0 * 0.7 + t * 0.3)%float)
  ∧ (∀ (ws : Workers) (now : Z) (url : string) (t1 t2 : float),
       responseTime <$> healthOf url
         (updateWorkerStatus url true t2 (updateWorkerStatus url true t1 (startWorld ws now)))
       = Some ((0 * 0.7 + t1 * 0.3) * 0.7 + t2 * 0.3)%float).
Proof.
  split; [| split].
  - intros w url t. rewrite lookup_updateWorkerStatus. reflexivity.
  - intros ws now url t. rewrite lookup_updateWorkerStatus. cbn zeta.
    replace (clock (startWorld ws now)) with now
      by (unfold startWorld; by rewrite clock_initializeWorkerHealth).
    rewrite startWorld_default. reflexivity.
  - intros ws now url t1 t2.
    rewrite !lookup_updateWorkerStatus. cbn zeta.
    rewrite clock_updateWorkerStatus.
    replace (clock (startWorld ws now)) with now
      by (unfold startWorld; by rewrite clock_initializeWorkerHealth).
    rewrite startWorld_default. reflexivity.
Qed.

(** On a fresh record the first smoothed value is three tenths of the
    sample (the product itself, unless that product is the negative zero). *)
Lemma first_sample_scaled (ws : Workers) (now : Z) (url : string) (t : float) :
  (t * 0.3)%float ≠ (-0)%float →
  responseTime <$> healthOf url (updateWorkerStatus url true t (startWorld ws now))
  = Some (t * 0.3)%float.
Proof.
  intros Ht. rewrite lookup_updateWorkerStatus. cbn zeta.
  replace (clock (startWorld ws now)) with now
    by (unfold startWorld; by rewrite clock_initializeWorkerHealth).
  rewrite startWorld_default. cbn.
  f_equal. change (0 * 0.7)%float with 0%float. by apply float_zero_add.
Qed.

(** C8.  From start-up on, whatever outcomes are recorded, whatever time
    passes and whatever recovery callbacks run, both counters of every record
    stay at or above 0; and one recorded outcome adds exactly 1 to the counter
    of its kind and takes 1 from the other one, stopping at 0. *)
Theorem C8_credits_floor_and_step :
  (∀ (ws : Workers) (now : Z) (es : list Event) (url : string),
     0 ≤ errorCount (current url (run es (startWorld ws now)))
     ∧ 0 ≤ successCount (current url (run es (startWorld ws now))))
  ∧ (∀ (w : World) (url : string) (t : float),
       let h := current url w in
       let h' := current url (updateWorkerStatus url true t w) in
       successCount h' = successCount h + 1
       ∧ errorCount h' = Z.max 0 (errorCount h - 1))
  ∧ (∀ (w : World) (url : string) (t : float),
       let h := current url w in
       let h' := current url (updateWorkerStatus url false t w) in
       errorCount h' = errorCount h + 1
       ∧ successCount h' = Z.max 0 (successCount h - 1)).
Proof.
  split; [| split].
  - intros ws now es url. unfold current.
    destruct (healthOf url (run es (startWorld ws now))) as [h|] eqn:E; cbn; [| lia].
    pose proof (countersWithin_run es 0 _ (Z.le_refl 0) (countersWithin_startWorld ws now) _ _ E).
    lia.
  - intros w url t. unfold current. rewrite lookup_updateWorkerStatus. cbn. lia.
  - intros w url t. unfold current. rewrite lookup_updateWorkerStatus. cbn. lia.
Qed.

(** C10.  [updateWorkerStatus] is a total state change: for every URL and
    every state it leaves a record for that URL in the map.  For a URL the
    map does not know, that record is the default one (healthy, both
    counters 0, response time 0) with the outcome applied. *)
Theorem C10_recording_is_total :
  (∀ (w : World) (url : string) (success : bool) (t : float),
     is_Some (healthOf url (updateWorkerStatus url success t w)))
  ∧ (∀ (w : World) (url : string) (success : bool) (t : float),
       healthOf url w = None →
       healthOf url (updateWorkerStatus url success t w)
       = Some (if success
               then onSuccess t (mkHealth true (clock w) 0%float 0 0)
               else onFailure (mkHealth true (clock w) 0%float 0 0)))
  ∧ (∀ (w : World) (url : string) (t : float),
       healthOf url w = None →
       healthOf url (updateWorkerStatus url true t w)
       = Some (mkHealth true (clock w) (0 * 0.7 + t * 0.3)%float 0 1)
       ∧ healthOf url (updateWorkerStatus url false t w)
         = Some (mkHealth true (clock w) 0%float 1 0)).
Proof.
  split; [| split].
  - intros w url success t. rewrite lookup_updateWorkerStatus. by eexists.
  - intros w url success t E. rewrite lookup_updateWorkerStatus, E. reflexivity.
  - intros w url t E. rewrite !lookup_updateWorkerStatus, E. split; reflexivity.
Qed.

(** Case analysis on one step of the healthy flag. *)
Ltac break_hyps :=
  repeat match goal with
    | H : ∃ _, _ |- _ => destruct H
    | H : _ ∧ _ |- _ => destruct H
    | H : _ ∨ _ |- _ => destruct H
    | H : @eq Event _ _ |- _ => first [discriminate H | injection H as ?; subst]
    | H : @eq (list _) _ _ |- _ => first [discriminate H | injection H as ?; subst]
    end.

Ltac flag_cases :=
  split_and?; intros;
  try match goal with |- _ ↔ _ => split; intros end;
  break_hyps;
  first [ congruence | lia
        | left; eexists; split; [reflexivity | lia]
        | eexists; split; [reflexivity | lia]
        | right; split; [reflexivity | do 2 eexists; split; [reflexivity | lia]]
        | cbn; split_and?; (reflexivity || lia)
        | idtac ].

(** C2, as stated, fails on the primary worker.  After six failures and
    two successes the record is unhealthy with failure credit 4: the third
    success brings the failure credit to 3 and at that very step the flag
    becomes true, and the next failure makes the flag false while the failure
    credit goes from 3 to 4.  After ten successes and three failures the
    record is unhealthy with success credit 7, and the next success makes it
    healthy while the success credit goes from 7 to 8.  And after failures at
    0, 299998 and 299999 ms the record, unhealthy since 299999, is made
    healthy at 300000 by the callback the first failure armed: one
    millisecond, not five minutes, after it became unhealthy. *)
Lemma C2_flag_changes_away_from_three :
  let p := primary defaultWorkers in
  let F := Outcome p false 0%float in
  let S := Outcome p true 0%float in
  let state (es : list Event) :=
    let h := current p (run es (startWorld defaultWorkers 0)) in
    (healthy h, errorCount h, successCount h) in
  (state (replicate 6 F ++ [S; S]) = (false, 4, 2)
   ∧ state (replicate 6 F ++ [S; S; S]) = (true, 3, 3)
   ∧ state (replicate 6 F ++ [S; S; S; F]) = (false, 4, 2))
  ∧ (state (replicate 10 S ++ [F; F; F]) = (false, 3, 7)
     ∧ state (replicate 10 S ++ [F; F; F; S]) = (true, 2, 8))
  ∧ (state [F; Elapse 299998; F; Elapse 1] = (true, 2, 0)
     ∧ clock (run [F; Elapse 299998; F; Elapse 1; F] (startWorld defaultWorkers 0)) = 299999
     ∧ state [F; Elapse 299998; F; Elapse 1; F] = (false, 3, 0)
     ∧ clock (run [F; Elapse 299998; F; Elapse 1; F; Elapse 1; TimerFires]
                (startWorld defaultWorkers 0)) = 300000
     ∧ state [F; Elapse 299998; F; Elapse 1; F; Elapse 1; TimerFires] = (true, 0, 0)).
Proof.
  cbn zeta. split_and!; vm_compute; reflexivity.
Qed.

(** C2 (amended).  Along every sequence of events (outcomes recorded, time
    passing, recovery callbacks run by the browser), look at the step made by
    the next event [e] on the record of [url].  The flag goes from healthy to
    unhealthy exactly when [e] records a failure for [url] that leaves its
    failure credit at 3 or more.  It goes from unhealthy to healthy exactly
    when [e] records a success for [url] that leaves its success credit at 3
    or more, or when [e] is the run of a due recovery callback of [url]; that
    callback sets the failure credit to 0 and leaves the success credit as
    it was.  Every recorded failure arms such a callback, due
    5 * 60 * 1000 ms after that failure, whether or not it made the record
    unhealthy. *)
Theorem C2_healthy_flag_transitions
    (w0 : World) (es : list Event) (e : Event) (url : string) :
  let w := run es w0 in
  let h := current url w in
  let h' := current url (run (es ++ [e]) w0) in
  (healthy h = true →
     (healthy h' = false ↔ ∃ t, e = Outcome url false t ∧ 3 ≤ errorCount h'))
  ∧ (healthy h = false →
       (healthy h' = true ↔
          (∃ t, e = Outcome url true t ∧ 3 ≤ successCount h')
          ∨ (e = TimerFires ∧ timerDue url w)))
  ∧ (healthy h = false → e = TimerFires → timerDue url w →
       healthy h' = true ∧ errorCount h' = 0 ∧ successCount h' = successCount h)
  ∧ (∀ t, e = Outcome url false t →
       timers (run (es ++ [e]) w0) = timers w ++ [(clock w + 300000, url)]).
Proof.
  rewrite run_snoc. generalize (run es w0) as w. clear w0 es. intros w. cbn zeta.
  destruct e as [u success t | ms | ].
  - (* an outcome is recorded *)
    cbn [handle]. destruct (decide (u = url)) as [->|Hne].
    + rewrite current_updateWorkerStatus.
      set (h := current url w).
      destruct success; cbn.
      * destruct (Z.leb_spec 3 (successCount h + 1)); flag_cases.
      * destruct (Z.leb_spec 3 (errorCount h + 1)); flag_cases.
        all: unfold updateWorkerStatus; cbn; reflexivity.
    + rewrite current_updateWorkerStatus_ne by done. flag_cases.
  - (* time passes *)
    cbn [handle].
    assert (Hh : healthy (current url (set_clock (clock w + Z.of_N ms) w))
                 = healthy (current url w)).
    { unfold current, healthOf. cbn. by destruct (workerHealth w !! url). }
    rewrite Hh. flag_cases.
  - (* the browser runs the oldest pending callback *)
    cbn [handle]. unfold timerDue.
    destruct (timers w) as [|[due u] rest] eqn:Et; [flag_cases |].
    destruct (Z.leb_spec due (clock w)) as [Hdue|Hdue].
    + destruct (decide (u = url)) as [->|Hne].
      * rewrite current_autoRecover.
        change (current url (set_timers (λ _, rest) w)) with (current url w).
        set (h := current url w).
        destruct (healthy h) eqn:Eh; flag_cases.
      * rewrite current_autoRecover_ne by done.
        change (current url (set_timers (λ _, rest) w)) with (current url w).
        flag_cases.
    + flag_cases.
Qed.

(** Non-vacuity of C2 on the primary worker: the third failure in a row
    makes it unhealthy, and the first recovery callback, run five minutes
    after the first failure, makes it healthy again with failure credit 0. *)
Lemma C2_three_failures_then_recovery :
  let p := primary defaultWorkers in
  let fails := [Outcome p false 0%float; Outcome p false 0%float; Outcome p false 0%float] in
  healthy (current p (run fails (startWorld defaultWorkers 0))) = false
  ∧ (let h' := current p (run ((fails ++ [Elapse 300000]) ++ [TimerFires])
                            (startWorld defaultWorkers 0)) in
     healthy h' = true ∧ errorCount h' = 0
     ∧ successCount h' = successCount (current p (run (fails ++ [Elapse 300000])
                                                    (startWorld defaultWorkers 0)))).
Proof.
  intros p fails. split.
  - destruct (C2_healthy_flag_transitions (startWorld defaultWorkers 0)
                [Outcome p false 0%float; Outcome p false 0%float]
                (Outcome p false 0%float) p) as (H & _).
    apply H; [reflexivity |].
    exists 0%float. split; [reflexivity | vm_compute; discriminate].
  - destruct (C2_healthy_flag_transitions (startWorld defaultWorkers 0)
                (fails ++ [Elapse 300000]) TimerFires p) as (_ & _ & H & _).
    apply H; [reflexivity | reflexivity |].
    exists 300000, [(300000, p); (300000, p)]. split; [reflexivity | vm_compute; discriminate].
Defined.

(** Non-vacuity of C10: an outcome for a URL the map has never seen. *)
Lemma C10_unknown_worker :
  healthOf "https://custom.example" 
    (updateWorkerStatus "https://custom.example" true 100%float (startWorld defaultWorkers 5))
  = Some (mkHealth true 5 (0 * 0.7 + 100 * 0.3)%float 0 1)
  ∧ healthOf "https://custom.example"
      (updateWorkerStatus "https://custom.example" false 100%float (startWorld defaultWorkers 5))
    = Some (mkHealth true 5 0%float 1 0).
Proof.
  destruct C10_recording_is_total as (_ & _ & H).
  apply (H (startWorld defaultWorkers 5) "https://custom.example" 100%float).
  vm_compute. reflexivity.
Defined.

End HealthClaims.

(** * Properties of the fetch orchestration *)

Module OrchestratorFacts.

Import Tracker Orchestrator.

(** ** What an [await] leaves alone *)

Lemma fire_frame (v : World) :
  trace (handle TimerFires v) = trace v
  ∧ clock (handle TimerFires v) = clock v
  ∧ abortController (handle TimerFires v) = abortController v.
Proof.
  cbn. destruct (timers v) as [|[due u] rest]; [done |].
  destruct (due <=? clock v); [| done]. unfold autoRecover. cbn.
  destruct (workerHealth v !! u) as [h|]; [| done]. by destruct (healthy h).
Qed.

Lemma fires_frame (n : nat) (w : World) :
  trace (Nat.iter n (handle TimerFires) w) = trace w
  ∧ clock (Nat.iter n (handle TimerFires) w) = clock w
  ∧ abortController (Nat.iter n (handle TimerFires) w) = abortController w.
Proof.
  induction n as [|n (IH1 & IH2 & IH3)]; [done |].
  change (Nat.iter (S n) (handle TimerFires) w)
    with (handle TimerFires (Nat.iter n (handle TimerFires) w)).
  destruct (fire_frame (Nat.iter n (handle TimerFires) w)) as (E1 & E2 & E3).
  by rewrite E1, E2, E3.
Qed.

Lemma trace_fires (n : nat) (w : World) : trace (Nat.iter n (handle TimerFires) w) = trace w.
Proof. apply fires_frame. Qed.

Lemma clock_fires (n : nat) (w : World) : clock (Nat.iter n (handle TimerFires) w) = clock w.
Proof. apply fires_frame. Qed.

Lemma abortController_fires (n : nat) (w : World) :
  abortController (Nat.iter n (handle TimerFires) w) = abortController w.
Proof. apply fires_frame. Qed.

Lemma abortCurrent_frame (w : World) :
  trace (abortCurrent w) = trace w ∧ clock (abortCurrent w) = clock w.
Proof. unfold abortCurrent. by destruct (abortController w). Qed.

(** Recovery callbacks, the clock and the caller's signal leave the
    success credit of every record alone. *)
Lemma successCount_current_ext (url : string) (w1 w2 : World) :
  healthOf url w1 = healthOf url w2 →
  successCount (current url w1) = successCount (current url w2).
Proof. unfold current. intros ->. by destruct (healthOf url w2). Qed.

Lemma successCount_fire (url : string) (v : World) :
  successCount (current url (handle TimerFires v)) = successCount (current url v).
Proof.
  cbn. destruct (timers v) as [|[due u] rest]; [done |].
  destruct (due <=? clock v); [| done].
  destruct (decide (u = url)) as [->|Hne].
  - rewrite TrackerFacts.current_autoRecover.
    change (current url (set_timers (λ _, rest) v)) with (current url v).
    by destruct (healthy (current url v)).
  - by rewrite TrackerFacts.current_autoRecover_ne.
Qed.

Lemma successCount_fires (url : string) (n : nat) (w : World) :
  successCount (current url (Nat.iter n (handle TimerFires) w)) = successCount (current url w).
Proof.
  induction n as [|n IH]; [done |].
  change (Nat.iter (S n) (handle TimerFires) w)
    with (handle TimerFires (Nat.iter n (handle TimerFires) w)).
  by rewrite successCount_fire.
Qed.

Section Await.

Variable cancelAt : option Z.

Lemma trace_elapse (ms : N) (w : World) : trace (elapse cancelAt ms w) = trace w.
Proof.
  unfold elapse. rewrite trace_fires.
  destruct cancelAt as [t|]; [| done].
  destruct ((clock w <? t) && (t <=? clock (handle (Elapse ms) w))); [| done].
  by rewrite (proj1 (abortCurrent_frame _)).
Qed.

Lemma clock_elapse (ms : N) (w : World) :
  clock (elapse cancelAt ms w) = clock w + Z.of_N ms.
Proof.
  unfold elapse. rewrite clock_fires.
  destruct cancelAt as [t|]; [| done].
  destruct ((clock w <? t) && (t <=? clock (handle (Elapse ms) w))); [| done].
  by rewrite (proj2 (abortCurrent_frame _)).
Qed.

Lemma elapse_blind (ms : N) (w1 w2 : World) :
  sameOutsideHealth w1 w2 →
  sameOutsideHealth (elapse cancelAt ms w1) (elapse cancelAt ms w2).
Proof.
  intros (Hc & Ht & Ha). unfold elapse, sameOutsideHealth.
  rewrite !trace_fires, !clock_fires, !abortController_fires.
  destruct cancelAt as [t|]; cbn; [| by rewrite Hc, Ht, Ha].
  rewrite Hc.
  destruct ((clock w2 <? t) && (t <=? clock w2 + Z.of_N ms)); cbn.
  - unfold abortCurrent. cbn. rewrite Ha.
    destruct (abortController w2) eqn:E; cbn; by rewrite ?Hc, ?Ht, ?E.
  - by rewrite Ht, Ha.
Qed.

Lemma successCount_elapse (url : string) (ms : N) (w : World) :
  successCount (current url (elapse cancelAt ms w)) = successCount (current url w).
Proof.
  unfold elapse. rewrite successCount_fires.
  apply successCount_current_ext.
  destruct cancelAt as [t|]; [| done].
  destruct ((clock w <? t) && (t <=? clock (handle (Elapse ms) w))); [| done].
  unfold abortCurrent. cbn. by destruct (abortController w).
Qed.

End Await.

(** ** One attempt *)

Lemma trace_updateWorkerStatus (url : string) (success : bool) (t : float) (w : World) :
  trace (updateWorkerStatus url success t w) = trace w ++ [ERecord url success].
Proof. unfold updateWorkerStatus. by destruct success. Qed.

Section Run.

Variable cfg : Config.
Variable ws : Workers.
Variable network : Z → string → NetBehaviour.
Variable cancelAt : option Z.
Variables endpoint params : string.

(** [fetchFromWorker] issues exactly one [fetch]; it throws in the cases
    listed by [failing] and returns the parsed body in all others. *)
Lemma fetchFromWorker_spec (worker : string) (w : World) :
  ∃ w1, trace w1 = trace w ++ [EFetch (urlOf endpoint params worker)] ∧
    if failing (requestTimeout cfg) (network (clock w) (urlOf endpoint params worker))
    then ∃ e, fetchFromWorker cfg network cancelAt worker endpoint params w = (Throw e, w1)
    else ∃ latency r data,
           network (clock w) (urlOf endpoint params worker) = NetResponse latency r
           ∧ body r = Some data
           ∧ fetchFromWorker cfg network cancelAt worker endpoint params w = (Normal data, w1).
Proof.
  unfold fetchFromWorker, try_catch, bind, fetch, json, throw, ret.
  fold (urlOf endpoint params worker). cbn [clock emit].
  destruct (network (clock w) (urlOf endpoint params worker)) as [|latency reason|latency r];
    cbn [failing].
  - eexists. split; [| by eexists]. by rewrite trace_elapse.
  - destruct (latency <? Z.to_N (requestTimeout cfg))%N;
      (eexists; split; [| by eexists]; by rewrite trace_elapse).
  - destruct (latency <? Z.to_N (requestTimeout cfg))%N; cbn [negb orb].
    + destruct (ok r); cbn [negb orb].
      * destruct (body r) as [data|] eqn:Eb.
        -- destruct (invalidPayload data) eqn:Ei.
           ++ eexists. split; [| by eexists]. by rewrite !trace_elapse.
           ++ eexists. split; [| by exists latency, r, data]. by rewrite !trace_elapse.
        -- eexists. split; [| by eexists]. by rewrite !trace_elapse.
      * eexists. split; [| by eexists]. by rewrite trace_elapse.
    + eexists. split; [| by eexists]. by rewrite trace_elapse.
Qed.

(** The loop body in terms of the outcome of [fetchFromWorker]. *)
Lemma tryWorker_spec (worker : string) (w : World) :
  tryWorker cfg network cancelAt endpoint params worker w =
  match fetchFromWorker cfg network cancelAt worker endpoint params w with
  | (Normal data, w1) =>
      (Normal (Some data),
       updateWorkerStatus worker true
         (PrimFloat.of_uint63 (Uint63.of_Z (clock w1))
          - PrimFloat.of_uint63 (Uint63.of_Z (clock w)))%float w1)
  | (Throw e, w1) => (Normal None, updateWorkerStatus worker false 0%float w1)
  end.
Proof.
  unfold tryWorker, try_catch, bind, performance_now, get, call, ret. cbn.
  by destruct (fetchFromWorker cfg network cancelAt worker endpoint params w) as [[data|e] w1].
Qed.

(** The loop body never throws; it records the outcome of its one fetch. *)
Lemma tryWorker_shape (worker : string) (w : World) :
  ∃ w',
    (failing (requestTimeout cfg) (network (clock w) (urlOf endpoint params worker)) = true
     ∧ tryWorker cfg network cancelAt endpoint params worker w = (Normal None, w')
     ∧ trace w' = trace w ++ failedAttempt endpoint params worker)
    ∨ (∃ latency r data,
         failing (requestTimeout cfg) (network (clock w) (urlOf endpoint params worker)) = false
         ∧ network (clock w) (urlOf endpoint params worker) = NetResponse latency r
         ∧ body r = Some data
         ∧ tryWorker cfg network cancelAt endpoint params worker w = (Normal (Some data), w')
         ∧ trace w' = trace w ++ successfulAttempt endpoint params worker).
Proof.
  rewrite tryWorker_spec.
  destruct (fetchFromWorker_spec worker w) as (w1 & Htr & H).
  destruct (failing _ _) eqn:Ef.
  - destruct H as (e & ->). eexists. left. split; [done |]. split; [done |].
    rewrite trace_updateWorkerStatus, Htr, <- app_assoc. reflexivity.
  - destruct H as (latency & r & data & Hn & Hb & ->). eexists. right.
    exists latency, r, data. split_and!; try done.
    rewrite trace_updateWorkerStatus, Htr, <- app_assoc. reflexivity.
Qed.

(** An attempt leaves the success credit of every record as it was: while
    it waits, only recovery callbacks touch the map. *)
Lemma successCount_fetchFromWorker (url worker : string) (w : World) :
  successCount (current url (snd (fetchFromWorker cfg network cancelAt worker endpoint params w)))
  = successCount (current url w).
Proof.
  unfold fetchFromWorker, try_catch, bind, fetch, json, throw, ret. cbn [clock emit].
  destruct (network (clock w) (worker +:+ endpoint +:+ "?" +:+ params))
    as [|latency reason|latency r].
  - cbn. by rewrite successCount_elapse.
  - destruct (latency <? Z.to_N (requestTimeout cfg))%N; cbn; by rewrite successCount_elapse.
  - destruct (latency <? Z.to_N (requestTimeout cfg))%N; cbn;
      [| by rewrite successCount_elapse].
    destruct (negb (ok r)); cbn; [by rewrite successCount_elapse |].
    destruct (body r) as [data|]; cbn; [| by rewrite !successCount_elapse].
    destruct (invalidPayload data); cbn; by rewrite !successCount_elapse.
Qed.

(** A failed attempt in terms of the state [fetchFromWorker] leaves. *)
Lemma tryWorker_failure (worker : string) (w : World) :
  attemptFails cfg network endpoint params worker w = true →
  ∃ e wf,
    fetchFromWorker cfg network cancelAt worker endpoint params w = (Throw e, wf)
    ∧ trace wf = trace w ++ [EFetch (urlOf endpoint params worker)]
    ∧ tryWorker cfg network cancelAt endpoint params worker w
      = (Normal None, updateWorkerStatus worker false 0%float wf).
Proof.
  unfold attemptFails. intros Hf.
  destruct (fetchFromWorker_spec worker w) as (wf & Htr & H).
  rewrite Hf in H. destruct H as (e & He).
  exists e, wf. split_and!; [done | done |]. by rewrite tryWorker_spec, He.
Qed.

(** A successful attempt in terms of the state [fetchFromWorker] leaves. *)
Lemma tryWorker_success (worker : string) (w : World) :
  attemptFails cfg network endpoint params worker w = false →
  ∃ latency r data wf,
    network (clock w) (urlOf endpoint params worker) = NetResponse latency r
    ∧ body r = Some data
    ∧ fetchFromWorker cfg network cancelAt worker endpoint params w = (Normal data, wf)
    ∧ trace wf = trace w ++ [EFetch (urlOf endpoint params worker)]
    ∧ tryWorker cfg network cancelAt endpoint params worker w
      = (Normal (Some data),
         updateWorkerStatus worker true
           (PrimFloat.of_uint63 (Uint63.of_Z (clock wf))
            - PrimFloat.of_uint63 (Uint63.of_Z (clock w)))%float wf).
Proof.
  unfold attemptFails. intros Hf.
  destruct (fetchFromWorker_spec worker w) as (wf & Htr & H).
  rewrite Hf in H. destruct H as (latency & r & data & Hn & Hb & He).
  exists latency, r, data, wf. split_and!; try done. by rewrite tryWorker_spec, He.
Qed.

(** ** One sweep *)

Lemma forWorkers_app (pre rest : list string) (w : World) :
  forWorkers cfg network cancelAt endpoint params (pre ++ rest) w =
  match forWorkers cfg network cancelAt endpoint params pre w with
  | (Normal None, w1) => forWorkers cfg network cancelAt endpoint params rest w1
  | other => other
  end.
Proof.
  revert w. induction pre as [|x pre IH]; intros w; [done |].
  cbn [app forWorkers]. unfold bind.
  destruct (tryWorker cfg network cancelAt endpoint params x w) as [[[d|]|e] w1];
    first [done | apply IH].
Qed.

Lemma forWorkers_shape (workers : list string) (w : World) :
  ∃ w',
    (forWorkers cfg network cancelAt endpoint params workers w = (Normal None, w')
     ∧ trace w' = trace w ++ failedAttempts endpoint params workers)
    ∨ (∃ pre worker post data,
         workers = pre ++ worker :: post
         ∧ forWorkers cfg network cancelAt endpoint params workers w = (Normal (Some data), w')
         ∧ trace w' = trace w ++ failedAttempts endpoint params pre
                              ++ successfulAttempt endpoint params worker).
Proof.
  revert w. induction workers as [|x l IH]; intros w.
  - exists w. left. split; [done |]. by rewrite app_nil_r.
  - cbn [forWorkers]. unfold bind.
    destruct (tryWorker_shape x w)
      as (w1 & [(_ & -> & Htr) | (latency & r & data & _ & _ & _ & -> & Htr)]).
    + destruct (IH w1) as (w' & [(-> & Htr') | (pre & worker & post & data & -> & -> & Htr')]).
      * exists w'. left. split; [done |].
        rewrite Htr', Htr. unfold failedAttempts. cbn. by rewrite <- app_assoc.
      * exists w'. right. exists (x :: pre), worker, post, data. split_and!; try done.
        rewrite Htr', Htr. unfold failedAttempts. cbn. by rewrite <- !app_assoc.
    + exists w1. right. exists [], x, l, data. split_and!; done.
Qed.

Lemma forWorkers_all_fail (workers : list string) (w : World) :
  (∀ t url, failing (requestTimeout cfg) (network t url) = true) →
  ∃ w', forWorkers cfg network cancelAt endpoint params workers w = (Normal None, w')
        ∧ trace w' = trace w ++ failedAttempts endpoint params workers.
Proof.
  intros Hfail. revert w. induction workers as [|x l IH]; intros w.
  - exists w. split; [done |]. by rewrite app_nil_r.
  - cbn [forWorkers]. unfold bind.
    destruct (tryWorker_shape x w)
      as (w1 & [(_ & -> & Htr) | (latency & r & data & Hf & _)]).
    + destruct (IH w1) as (w' & -> & Htr'). exists w'. split; [done |].
      rewrite Htr', Htr. unfold failedAttempts. cbn. by rewrite <- app_assoc.
    + by rewrite Hfail in Hf.
Qed.

Lemma sweep_shape (w : World) :
  ∃ w',
    (sweep cfg ws network cancelAt endpoint params w
       = (Throw (Error "All workers failed"), w')
     ∧ trace w' = trace w ++ failedAttempts endpoint params (workerList ws))
    ∨ (∃ pre worker post data,
         workerList ws = pre ++ worker :: post
         ∧ sweep cfg ws network cancelAt endpoint params w = (Normal data, w')
         ∧ trace w' = trace w ++ failedAttempts endpoint params pre
                              ++ successfulAttempt endpoint params worker).
Proof.
  unfold sweep, bind.
  destruct (forWorkers_shape (workerList ws) w)
    as (w' & [(-> & Htr) | (pre & worker & post & data & Hl & -> & Htr)]).
  - exists w'. by left.
  - exists w'. right. by exists pre, worker, post, data.
Qed.

(** ** Which workers a sweep reaches *)

Lemma allFail_cons (x : string) (l : list string) (w : World) :
  allFail cfg network cancelAt endpoint params (x :: l) w
  ↔ attemptFails cfg network endpoint params x w = true
    ∧ allFail cfg network cancelAt endpoint params l
        (snd (tryWorker cfg network cancelAt endpoint params x w)).
Proof.
  unfold allFail. split.
  - intros H. split; [exact (H O x eq_refl) |].
    intros i worker Hi. exact (H (S i) worker Hi).
  - intros [H0 H] [|i] worker Hi.
    + cbn in Hi. injection Hi as <-. exact H0.
    + exact (H i worker Hi).
Qed.

Lemma forWorkers_allFail (l : list string) (w : World) :
  allFail cfg network cancelAt endpoint params l w →
  forWorkers cfg network cancelAt endpoint params l w
  = (Normal None, afterAttempts cfg network cancelAt endpoint params l w)
  ∧ trace (afterAttempts cfg network cancelAt endpoint params l w)
    = trace w ++ failedAttempts endpoint params l.
Proof.
  revert w. induction l as [|x l IH]; intros w Hall.
  - split; [done |]. cbn. by rewrite app_nil_r.
  - apply allFail_cons in Hall as [Hx Hl].
    destruct (tryWorker_failure x w Hx) as (e & wf & _ & Htr & Htry).
    rewrite Htry in Hl. cbn [snd] in Hl.
    destruct (IH _ Hl) as [Hrun Htr'].
    cbn [forWorkers afterAttempts foldl]. unfold bind. rewrite Htry. cbn [snd].
    fold (afterAttempts cfg network cancelAt endpoint params l
            (updateWorkerStatus x false 0%float wf)).
    split; [exact Hrun |].
    rewrite Htr', trace_updateWorkerStatus, Htr. unfold failedAttempts. cbn.
    by rewrite <- !app_assoc.
Qed.

(** In every sweep either each worker fails in its turn or there is a first
    one that does not. *)
Lemma sweep_cases (l : list string) (w : World) :
  allFail cfg network cancelAt endpoint params l w
  ∨ ∃ pre worker post,
      l = pre ++ worker :: post
      ∧ allFail cfg network cancelAt endpoint params pre w
      ∧ attemptFails cfg network endpoint params worker
          (afterAttempts cfg network cancelAt endpoint params pre w) = false.
Proof.
  revert w. induction l as [|x l IH]; intros w.
  - left. intros i worker Hi. by destruct i.
  - destruct (attemptFails cfg network endpoint params x w) eqn:Hx.
    + destruct (IH (snd (tryWorker cfg network cancelAt endpoint params x w)))
        as [Hall | (pre & worker & post & -> & Hpre & Hw)].
      * left. by apply allFail_cons.
      * right. exists (x :: pre), worker, post. split_and!; [done | | done].
        by apply allFail_cons.
    + right. exists [], x, l. split_and!; [done | | done].
      intros i worker Hi. by destruct i.
Qed.

(** The sweep in which [worker] is the first to answer. *)
Lemma sweep_first_answer (pre : list string) (worker : string) (post : list string)
    (w : World) :
  workerList ws = pre ++ worker :: post →
  allFail cfg network cancelAt endpoint params pre w →
  attemptFails cfg network endpoint params worker
    (afterAttempts cfg network cancelAt endpoint params pre w) = false →
  ∃ latency r data w',
    network (clock (afterAttempts cfg network cancelAt endpoint params pre w))
            (urlOf endpoint params worker) = NetResponse latency r
    ∧ body r = Some data
    ∧ sweep cfg ws network cancelAt endpoint params w = (Normal data, w')
    ∧ trace w' = trace w ++ failedAttempts endpoint params pre
                         ++ successfulAttempt endpoint params worker.
Proof.
  intros Hl Hpre Hw.
  destruct (forWorkers_allFail pre w Hpre) as [Hrun Htr].
  destruct (tryWorker_success worker _ Hw) as (latency & r & data & wf & Hn & Hb & _ & Htrf & Htry).
  exists latency, r, data. eexists. split_and!; [done | done | |].
  - unfold sweep, bind. rewrite Hl, forWorkers_app, Hrun.
    cbn [forWorkers]. unfold bind. rewrite Htry. reflexivity.
  - rewrite trace_updateWorkerStatus, Htrf, Htr. unfold successfulAttempt.
    by rewrite <- !app_assoc.
Qed.

(** The sweep in which no worker answers. *)
Lemma sweep_no_answer (w : World) :
  allFail cfg network cancelAt endpoint params (workerList ws) w →
  ∃ w', sweep cfg ws network cancelAt endpoint params w
        = (Throw (Error "All workers failed"), w')
        ∧ trace w' = trace w ++ failedAttempts endpoint params (workerList ws).
Proof.
  intros Hall. destruct (forWorkers_allFail _ w Hall) as [Hrun Htr].
  eexists. split; [| exact Htr]. unfold sweep, bind. by rewrite Hrun.
Qed.

(** ** The retry recursion *)

(** The source text of [fetchWithFallback]. *)
Lemma fetchWithFallback_unfold (retries : Z) :
  fetchWithFallback cfg ws network cancelAt endpoint params retries =
  try_catch (sweep cfg ws network cancelAt endpoint params)
    (fun error =>
       if retries <? maxRetries cfg
       then delay cancelAt (1000 * (retries + 1)) ;;;
            fetchWithFallback cfg ws network cancelAt endpoint params (retries + 1)
       else throw error).
Proof.
  unfold fetchWithFallback.
  destruct (Z.ltb_spec retries (maxRetries cfg)) as [Hlt|Hge].
  - replace (Z.to_nat (maxRetries cfg - retries))
      with (S (Z.to_nat (maxRetries cfg - (retries + 1)))) by lia.
    reflexivity.
  - replace (Z.to_nat (maxRetries cfg - retries)) with O by lia.
    reflexivity.
Qed.

Lemma trace_delay (ms : Z) (w : World) :
  ∃ w', delay cancelAt ms w = (Normal tt, w') ∧ trace w' = trace w ++ [EDelay ms]
        ∧ clock w' = clock w + Z.of_N (Z.to_N ms).
Proof.
  unfold delay, call. eexists. split; [done |].
  by rewrite trace_elapse, clock_elapse.
Qed.

Lemma runEffects_cons (retries : Z) (s0 s1 : list Effect) (rest : list (list Effect)) :
  runEffects retries (s0 :: s1 :: rest)
  = s0 ++ EDelay (1000 * (retries + 1)) :: runEffects (retries + 1) (s1 :: rest).
Proof. reflexivity. Qed.

(** Every call is a run of failed sweeps, each retry after its wait, ended
    either by the aggregate error once the budget is used up or by the first
    sweep in which some worker answers. *)
Lemma fetchWithFallback_from_shape (budget : nat) (retries : Z) (w : World) :
  ∃ r w' sweeps,
    fetchWithFallback_from cfg ws network cancelAt budget endpoint params retries w = (r, w')
    ∧ trace w' = trace w ++ runEffects retries sweeps
    ∧ ((r = Throw (Error "All workers failed")
        ∧ sweeps = replicate (S budget) (failedAttempts endpoint params (workerList ws)))
       ∨ (∃ k pre worker post data,
            (k ≤ budget)%nat
            ∧ workerList ws = pre ++ worker :: post
            ∧ r = Normal data
            ∧ sweeps = replicate k (failedAttempts endpoint params (workerList ws))
                       ++ [failedAttempts endpoint params pre
                           ++ successfulAttempt endpoint params worker])).
Proof.
  revert retries w. induction budget as [|b IH]; intros retries w.
  - cbn [fetchWithFallback_from]. unfold try_catch.
    destruct (sweep_shape w)
      as (w1 & [(-> & Htr) | (pre & worker & post & data & Hl & -> & Htr)]).
    + eexists _, w1, _. split; [done |]. split; [| left; done].
      cbn. by rewrite app_nil_r.
    + eexists _, w1, _. split; [done |]. split; [| right; exists O, pre, worker, post, data; done].
      cbn. by rewrite app_nil_r.
  - cbn [fetchWithFallback_from]. unfold try_catch.
    destruct (sweep_shape w)
      as (w1 & [(-> & Htr) | (pre & worker & post & data & Hl & -> & Htr)]).
    + unfold bind.
      destruct (trace_delay (1000 * (retries + 1)) w1) as (w2 & -> & Htr2 & _).
      destruct (IH (retries + 1) w2) as (r & w' & sweeps & -> & Htr' & Hcase).
      exists r, w', (failedAttempts endpoint params (workerList ws) :: sweeps).
      split; [done |].
      assert (Hne : ∃ s1 rest, sweeps = s1 :: rest).
      { destruct Hcase as [(_ & ->) | (k & ? & ? & ? & ? & _ & _ & _ & ->)].
        - by eexists _, _.
        - destruct k; by eexists _, _. }
      destruct Hne as (s1 & rest & Hs). split.
      * rewrite Htr', Htr2, Htr, Hs, runEffects_cons, <- !app_assoc. reflexivity.
      * destruct Hcase as [(-> & ->) | (k & pre & worker & post & data & Hk & Hl & -> & ->)].
        -- by left.
        -- right. exists (S k), pre, worker, post, data. split_and!; try done. lia.
    + exists (Normal data), w1,
        [failedAttempts endpoint params pre ++ successfulAttempt endpoint params worker].
      split; [done |]. split; [| right; exists O, pre, worker, post, data].
      * cbn. by rewrite app_nil_r.
      * split_and!; try done. lia.
Qed.

(** When no attempt can succeed, the budget is used up. *)
Lemma fetchWithFallback_from_all_fail (budget : nat) (retries : Z) (w : World) :
  (∀ t url, failing (requestTimeout cfg) (network t url) = true) →
  ∃ w',
    fetchWithFallback_from cfg ws network cancelAt budget endpoint params retries w
      = (Throw (Error "All workers failed"), w')
    ∧ trace w' = trace w ++ runEffects retries
                   (replicate (S budget) (failedAttempts endpoint params (workerList ws))).
Proof.
  intros Hfail.
  assert (Hsweep : ∀ v, ∃ v',
    sweep cfg ws network cancelAt endpoint params v = (Throw (Error "All workers failed"), v')
    ∧ trace v' = trace v ++ failedAttempts endpoint params (workerList ws)).
  { intros v. unfold sweep, bind.
    destruct (forWorkers_all_fail (workerList ws) v Hfail) as (v' & -> & Htr). by exists v'. }
  revert retries w. induction budget as [|b IH]; intros retries w;
    cbn [fetchWithFallback_from]; unfold try_catch;
    destruct (Hsweep w) as (w1 & -> & Htr).
  - exists w1. split; [done |]. cbn. by rewrite app_nil_r.
  - unfold bind.
    destruct (trace_delay (1000 * (retries + 1)) w1) as (w2 & -> & Htr2 & _).
    destruct (IH (retries + 1) w2) as (w' & -> & Htr'). exists w'. split; [done |].
    rewrite Htr', Htr2, Htr.
    change (replicate (S (S b)) ?x) with (x :: x :: replicate b x).
    rewrite runEffects_cons, <- !app_assoc. reflexivity.
Qed.

(** ** The health map is never read *)

Lemma blind_ret {A} (a : A) : HealthBlind (ret a).
Proof. by intros w1 w2 H. Qed.

Lemma blind_throw {A} (e : JsError) : HealthBlind (@throw A e).
Proof. by intros w1 w2 H. Qed.

Lemma blind_bind {A B} (m : M A) (k : A → M B) :
  HealthBlind m → (∀ a, HealthBlind (k a)) → HealthBlind (bind m k).
Proof.
  intros Hm Hk w1 w2 H. unfold bind. destruct (Hm w1 w2 H) as [Hr Hw].
  destruct (m w1) as [[a1|e1] v1], (m w2) as [[a2|e2] v2]; cbn in *; simplify_eq.
  - by apply Hk.
  - done.
Qed.

Lemma blind_try_catch {A} (body : M A) (handler : JsError → M A) :
  HealthBlind body → (∀ e, HealthBlind (handler e)) → HealthBlind (try_catch body handler).
Proof.
  intros Hm Hk w1 w2 H. unfold try_catch. destruct (Hm w1 w2 H) as [Hr Hw].
  destruct (body w1) as [[a1|e1] v1], (body w2) as [[a2|e2] v2]; cbn in *; simplify_eq.
  - done.
  - by apply Hk.
Qed.

Lemma blind_call (f : World → World) :
  (∀ w1 w2, sameOutsideHealth w1 w2 → sameOutsideHealth (f w1) (f w2)) →
  HealthBlind (call f).
Proof. intros Hf w1 w2 H. split; [done | by apply Hf]. Qed.

Lemma updateWorkerStatus_blind (url : string) (success : bool) (t : float) (w1 w2 : World) :
  sameOutsideHealth w1 w2 →
  sameOutsideHealth (updateWorkerStatus url success t w1) (updateWorkerStatus url success t w2).
Proof.
  intros (Hc & Ht & Ha). unfold sameOutsideHealth, updateWorkerStatus.
  destruct success; cbn; by rewrite Hc, Ht, Ha.
Qed.

Lemma blind_performance_now : HealthBlind performance_now.
Proof.
  intros w1 w2 H. split; [| done]. unfold performance_now, get. cbn.
  destruct H as (-> & _). reflexivity.
Qed.

Lemma blind_fetch (url : string) (abortAfter : Z) :
  HealthBlind (fetch network cancelAt url abortAfter).
Proof.
  intros w1 w2 H. unfold fetch. cbn [clock emit].
  assert (He : sameOutsideHealth (emit (EFetch url) w1) (emit (EFetch url) w2)).
  { destruct H as (Hc & Ht & Ha). unfold sameOutsideHealth. cbn. by rewrite Hc, Ht, Ha. }
  destruct H as (-> & _).
  destruct (network (clock w2) url) as [|latency reason|latency r]; cbn.
  - split; [done | by apply elapse_blind].
  - destruct (latency <? Z.to_N abortAfter)%N; (split; [done | by apply elapse_blind]).
  - destruct (latency <? Z.to_N abortAfter)%N; (split; [done | by apply elapse_blind]).
Qed.

Lemma blind_json (r : Response) : HealthBlind (json cancelAt r).
Proof.
  intros w1 w2 H. unfold json.
  destruct (body r); (split; [done | by apply elapse_blind]).
Qed.

Lemma blind_fetchFromWorker (worker : string) :
  HealthBlind (fetchFromWorker cfg network cancelAt worker endpoint params).
Proof.
  unfold fetchFromWorker. apply blind_try_catch; [| intros e; apply blind_throw].
  apply blind_bind; [apply blind_fetch |]. intros response.
  destruct (negb (ok response)); [apply blind_throw |].
  apply blind_bind; [apply blind_json |]. intros data.
  destruct (invalidPayload data); [apply blind_throw | apply blind_ret].
Qed.

Lemma blind_tryWorker (worker : string) :
  HealthBlind (tryWorker cfg network cancelAt endpoint params worker).
Proof.
  unfold tryWorker. apply blind_try_catch.
  - apply blind_bind; [apply blind_performance_now |]. intros startTime.
    apply blind_bind; [apply blind_fetchFromWorker |]. intros response.
    apply blind_bind; [apply blind_performance_now |]. intros endTime.
    apply blind_bind; [| intros _; apply blind_ret].
    apply blind_call. intros w1 w2. apply updateWorkerStatus_blind.
  - intros e. apply blind_bind; [| intros _; apply blind_ret].
    apply blind_call. intros w1 w2. apply updateWorkerStatus_blind.
Qed.

Lemma blind_forWorkers (workers : list string) :
  HealthBlind (forWorkers cfg network cancelAt endpoint params workers).
Proof.
  induction workers as [|x l IH]; cbn [forWorkers]; [apply blind_ret |].
  apply blind_bind; [apply blind_tryWorker |].
  intros [response|]; [apply blind_ret | apply IH].
Qed.

Lemma blind_sweep : HealthBlind (sweep cfg ws network cancelAt endpoint params).
Proof.
  unfold sweep. apply blind_bind; [apply blind_forWorkers |].
  intros [response|]; [apply blind_ret | apply blind_throw].
Qed.

Lemma blind_delay (ms : Z) : HealthBlind (delay cancelAt ms).
Proof.
  unfold delay. apply blind_call. intros w1 w2 (Hc & Ht & Ha).
  apply elapse_blind. unfold sameOutsideHealth. cbn. by rewrite Hc, Ht, Ha.
Qed.

Lemma blind_fetchWithFallback_from (budget : nat) (retries : Z) :
  HealthBlind (fetchWithFallback_from cfg ws network cancelAt budget endpoint params retries).
Proof.
  revert retries. induction budget as [|b IH]; intros retries; cbn [fetchWithFallback_from];
    (apply blind_try_catch; [apply blind_sweep |]); intros e.
  - apply blind_throw.
  - apply blind_bind; [apply blind_delay | intros _; apply IH].
Qed.

End Run.

(** ** Reading the effects of a run *)

Lemma fetchedUrls_app (a b : list Effect) : fetchedUrls (a ++ b) = fetchedUrls a ++ fetchedUrls b.
Proof. apply omap_app. Qed.

Lemma recorded_app (a b : list Effect) : recorded (a ++ b) = recorded a ++ recorded b.
Proof. apply omap_app. Qed.


Section Reading.

Variables endpoint params : string.

Lemma fetchedUrls_failedAttempts (l : list string) :
  fetchedUrls (failedAttempts endpoint params l) = urlOf endpoint params <$> l.
Proof. induction l as [|x l IH]; [done |]. cbn. f_equal. exact IH. Qed.

Lemma recorded_failedAttempts (l : list string) :
  recorded (failedAttempts endpoint params l) = (λ worker, (worker, false)) <$> l.
Proof. induction l as [|x l IH]; [done |]. cbn. f_equal. exact IH. Qed.


End Reading.

Lemma fetchedUrls_withBackoff (N : Z) (sweeps : list (list Effect)) :
  fetchedUrls (withBackoff N sweeps) = concat (fetchedUrls <$> sweeps).
Proof.
  revert N. induction sweeps as [|s rest IH]; intros N; [done |].
  cbn [withBackoff fmap list_fmap concat].
  change (fetchedUrls (EDelay (1000 * N) :: s ++ withBackoff (N + 1) rest))
    with (fetchedUrls (s ++ withBackoff (N + 1) rest)).
  by rewrite fetchedUrls_app, IH.
Qed.

Lemma recorded_withBackoff (N : Z) (sweeps : list (list Effect)) :
  recorded (withBackoff N sweeps) = concat (recorded <$> sweeps).
Proof.
  revert N. induction sweeps as [|s rest IH]; intros N; [done |].
  cbn [withBackoff fmap list_fmap concat].
  change (recorded (EDelay (1000 * N) :: s ++ withBackoff (N + 1) rest))
    with (recorded (s ++ withBackoff (N + 1) rest)).
  by rewrite recorded_app, IH.
Qed.




Lemma fmap_replicate_sweeps {A} (f : list Effect → A) (n : nat) (s : list Effect) :
  f <$> replicate n s = replicate n (f s).
Proof. induction n as [|n IH]; [done |]. cbn. by rewrite IH. Qed.

Lemma length_concat_replicate {A} (n : nat) (l : list A) :
  length (concat (replicate n l)) = (n * length l)%nat.
Proof. induction n as [|n IH]; [done |]. cbn. by rewrite length_app, IH. Qed.

End OrchestratorFacts.

(** * The claims about the fetch orchestration *)

Module FetchClaims.

Import Tracker Orchestrator OrchestratorFacts.

Lemma fetchedUrls_failed_run (endpoint params : string) (retries : Z) (n : nat)
    (workers : list string) :
  fetchedUrls (runEffects retries (replicate (S n) (failedAttempts endpoint params workers)))
  = concat (replicate (S n) (urlOf endpoint params <$> workers)).
Proof.
  cbn [replicate runEffects].
  rewrite fetchedUrls_app, fetchedUrls_withBackoff, fmap_replicate_sweeps.
  by rewrite fetchedUrls_failedAttempts.
Qed.

Lemma recorded_failed_run (endpoint params : string) (retries : Z) (n : nat)
    (workers : list string) :
  recorded (runEffects retries (replicate (S n) (failedAttempts endpoint params workers)))
  = concat (replicate (S n) ((λ worker, (worker, false)) <$> workers)).
Proof.
  cbn [replicate runEffects].
  rewrite recorded_app, recorded_withBackoff, fmap_replicate_sweeps.
  by rewrite recorded_failedAttempts.
Qed.

Lemma take_fmap_through {A B} (f : A → B) (pre : list A) (x : A) (post : list A) :
  take (S (length pre)) (f <$> (pre ++ x :: post)) = (f <$> pre) ++ [f x].
Proof. induction pre as [|y pre IH]; cbn; [done | by rewrite IH]. Qed.

(** C1.  With a retry bound [maxRetries >= 0], a call of [fetchWithFallback]
    in which no attempt can succeed throws the one error "All workers
    failed" after fetching, in order, the URLs of primary and fallbacks
    [maxRetries + 1] times over, every attempt being recorded as a failure:
    [(maxRetries + 1) * (1 + number of fallbacks)] fetches, 24 for the
    constructor's configuration. *)
Theorem C1_all_fail_sweeps
    (cfg : Config) (ws : Workers) (network : Z → string → NetBehaviour)
    (cancelAt : option Z) (endpoint params : string) (w : World) :
  0 ≤ maxRetries cfg →
  (∀ t url, failing (requestTimeout cfg) (network t url) = true) →
  ∃ w' new,
    fetchWithFallback cfg ws network cancelAt endpoint params 0 w
      = (Throw (Error "All workers failed"), w')
    ∧ trace w' = trace w ++ new
    ∧ fetchedUrls new
      = concat (replicate (Z.to_nat (maxRetries cfg + 1))
                          (urlOf endpoint params <$> workerList ws))
    ∧ recorded new
      = concat (replicate (Z.to_nat (maxRetries cfg + 1))
                          ((λ worker, (worker, false)) <$> workerList ws))
    ∧ Z.of_nat (length (fetchedUrls new))
      = (maxRetries cfg + 1) * Z.of_nat (length (workerList ws)).
Proof.
  intros Hmax Hfail. unfold fetchWithFallback.
  destruct (fetchWithFallback_from_all_fail cfg ws network cancelAt endpoint params
              (Z.to_nat (maxRetries cfg - 0)) 0 w Hfail) as (w' & Hrun & Htr).
  exists w', (runEffects 0 (replicate (S (Z.to_nat (maxRetries cfg - 0)))
                (failedAttempts endpoint params (workerList ws)))).
  replace (Z.to_nat (maxRetries cfg + 1)) with (S (Z.to_nat (maxRetries cfg - 0))) by lia.
  split_and!; try done.
  - apply fetchedUrls_failed_run.
  - apply recorded_failed_run.
  - rewrite fetchedUrls_failed_run, length_concat_replicate, length_fmap. lia.
Qed.

(** With the constructor's configuration and a network that never answers:
    24 fetches, then the aggregate error. *)
Lemma C1_default_24_attempts :
  ∃ w' new,
    fetchWithFallback defaultConfig defaultWorkers allHang None "/search" "q=cats" 0
        (startWorld defaultWorkers 0)
      = (Throw (Error "All workers failed"), w')
    ∧ trace w' = trace (startWorld defaultWorkers 0) ++ new
    ∧ fetchedUrls new
      = concat (replicate (Z.to_nat (maxRetries defaultConfig + 1))
                          (urlOf "/search" "q=cats" <$> workerList defaultWorkers))
    ∧ recorded new
      = concat (replicate (Z.to_nat (maxRetries defaultConfig + 1))
                          ((λ worker, (worker, false)) <$> workerList defaultWorkers))
    ∧ Z.of_nat (length (fetchedUrls new)) = (3 + 1) * 6.
Proof.
  apply (C1_all_fail_sweeps defaultConfig defaultWorkers allHang None "/search" "q=cats"
           (startWorld defaultWorkers 0)).
  - vm_compute. discriminate.
  - intros t url. reflexivity.
Defined.

(** C5.  In a sweep in which the workers before [worker] have all failed
    and the attempt on [worker] succeeds (answer within the timeout, status
    200-299, body parsing to a payload that passes validation), the sweep,
    and with it [fetchWithFallback], returns that payload as parsed, and
    nothing is fetched after the attempt on [worker], so the workers listed
    behind it are not attempted.  The success is recorded in the health map:
    the record of [worker] is the one the attempt found with the success
    branch of [updateWorkerStatus] applied to it, its success credit is one
    more than before the attempt, its failure credit one less (not below 0),
    its check time the time of recording, and it is healthy once the credit
    is 3; no other record is touched by the recording. *)
Theorem C5_first_success_short_circuits
    (cfg : Config) (ws : Workers) (network : Z → string → NetBehaviour)
    (cancelAt : option Z) (endpoint params : string) (retries : Z)
    (pre : list string) (worker : string) (post : list string)
    (w w1 : World) (latency : N) (r : Response) (data : JsonVal) :
  workerList ws = pre ++ worker :: post →
  forWorkers cfg network cancelAt endpoint params pre w = (Normal None, w1) →
  network (clock w1) (urlOf endpoint params worker) = NetResponse latency r →
  (latency < Z.to_N (requestTimeout cfg))%N →
  ok r = true →
  body r = Some data →
  invalidPayload data = false →
  ∃ w' new wf,
    sweep cfg ws network cancelAt endpoint params w = (Normal data, w')
    ∧ fetchWithFallback cfg ws network cancelAt endpoint params retries w = (Normal data, w')
    ∧ trace w' = trace w ++ new
    ∧ new = failedAttempts endpoint params pre ++ successfulAttempt endpoint params worker
    ∧ fetchedUrls new = (urlOf endpoint params <$> pre) ++ [urlOf endpoint params worker]
    ∧ recorded new = ((λ x, (x, false)) <$> pre) ++ [(worker, true)]
    ∧ fetchFromWorker cfg network cancelAt worker endpoint params w1 = (Normal data, wf)
    ∧ (let sample := (PrimFloat.of_uint63 (Uint63.of_Z (clock wf))
                      - PrimFloat.of_uint63 (Uint63.of_Z (clock w1)))%float in
       w' = updateWorkerStatus worker true sample wf
       ∧ healthOf worker w'
         = Some (onSuccess sample (touch (clock wf) (current worker wf))))
    ∧ successCount (current worker w') = successCount (current worker w1) + 1
    ∧ errorCount (current worker w') = Z.max 0 (errorCount (current worker wf) - 1)
    ∧ lastCheck (current worker w') = clock w'
    ∧ (3 ≤ successCount (current worker w') → healthy (current worker w') = true)
    ∧ (∀ other, other ≠ worker → healthOf other w' = healthOf other wf).
Proof.
  intros Hl Hpre Hnet Hlat Hok Hbody Hvalid.
  assert (Htr1 : trace w1 = trace w ++ failedAttempts endpoint params pre).
  { destruct (forWorkers_shape cfg network cancelAt endpoint params pre w)
      as (v & [(Hv & Htr) | (? & ? & ? & ? & _ & Hv & _)]);
      rewrite Hpre in Hv; by simplify_eq. }
  assert (Hgood : attemptFails cfg network endpoint params worker w1 = false).
  { unfold attemptFails. rewrite Hnet. cbn.
    apply N.ltb_lt in Hlat. by rewrite Hlat, Hok, Hbody, Hvalid. }
  destruct (tryWorker_success cfg network cancelAt endpoint params worker w1 Hgood)
    as (latency' & r' & data' & wf & Hnet' & Hbody' & Hfetch & Htrf & Htry).
  rewrite Hnet in Hnet'. injection Hnet' as <- <-.
  rewrite Hbody in Hbody'. injection Hbody' as <-.
  set (sample := (PrimFloat.of_uint63 (Uint63.of_Z (clock wf))
                  - PrimFloat.of_uint63 (Uint63.of_Z (clock w1)))%float) in *.
  set (w' := updateWorkerStatus worker true sample wf) in *.
  assert (Hsweep : sweep cfg ws network cancelAt endpoint params w = (Normal data, w')).
  { unfold sweep, bind. rewrite Hl, forWorkers_app, Hpre.
    cbn [forWorkers]. unfold bind. by rewrite Htry. }
  assert (Hcur : current worker w' = onSuccess sample (touch (clock wf) (current worker wf))).
  { subst w'. by rewrite TrackerFacts.current_updateWorkerStatus. }
  exists w', (failedAttempts endpoint params pre ++ successfulAttempt endpoint params worker), wf.
  split_and!.
  - exact Hsweep.
  - rewrite fetchWithFallback_unfold. unfold try_catch. by rewrite Hsweep.
  - subst w'. rewrite trace_updateWorkerStatus, Htrf, Htr1. unfold successfulAttempt.
    by rewrite <- !app_assoc.
  - done.
  - by rewrite fetchedUrls_app, fetchedUrls_failedAttempts.
  - by rewrite recorded_app, recorded_failedAttempts.
  - exact Hfetch.
  - cbn zeta. split; [done |]. subst w'. by rewrite TrackerFacts.lookup_updateWorkerStatus.
  - rewrite Hcur. cbn.
    pose proof (successCount_fetchFromWorker cfg network cancelAt endpoint params
                  worker worker w1) as Hs.
    rewrite Hfetch in Hs. cbn [snd] in Hs. by rewrite Hs.
  - rewrite Hcur. reflexivity.
  - rewrite Hcur. subst w'. by rewrite TrackerFacts.clock_updateWorkerStatus.
  - rewrite Hcur. cbn. intros H3.
    destruct (Z.leb_spec 3 (successCount (current worker wf) + 1)); [done | lia].
  - intros other Hne. subst w'. by apply TrackerFacts.lookup_updateWorkerStatus_ne.
Qed.

(** Third worker of six answers on the first sweep: the payload comes back
    as parsed after three fetches, and the success credit of that worker
    goes from 0 to 1. *)
Lemma C5_third_of_six :
  ∃ w' new,
    sweep defaultConfig defaultWorkers thirdAnswers None "/search" "q=cats"
        (startWorld defaultWorkers 1000) = (Normal echoPayload, w')
    ∧ fetchWithFallback defaultConfig defaultWorkers thirdAnswers None "/search" "q=cats" 0
        (startWorld defaultWorkers 1000) = (Normal echoPayload, w')
    ∧ trace w' = trace (startWorld defaultWorkers 1000) ++ new
    ∧ fetchedUrls new
      = (urlOf "/search" "q=cats"
           <$> ["https://proxy.yoohoo.workers.dev"; "https://proxy1.yoohoo.workers.dev"])
        ++ [urlOf "/search" "q=cats" "https://proxy2.yoohoo.workers.dev"]
    ∧ recorded new
      = ((λ x, (x, false))
           <$> ["https://proxy.yoohoo.workers.dev"; "https://proxy1.yoohoo.workers.dev"])
        ++ [("https://proxy2.yoohoo.workers.dev", true)]
    ∧ successCount (current "https://proxy2.yoohoo.workers.dev" w') = 1.
Proof.
  destruct (C5_first_success_short_circuits defaultConfig defaultWorkers thirdAnswers None
           "/search" "q=cats" 0
           ["https://proxy.yoohoo.workers.dev"; "https://proxy1.yoohoo.workers.dev"]
           "https://proxy2.yoohoo.workers.dev"
           ["https://proxy3.yoohoo.workers.dev"; "https://proxy4.yoohoo.workers.dev";
            "https://proxy5.yoohoo.workers.dev"]
           (startWorld defaultWorkers 1000)
           (snd (forWorkers defaultConfig thirdAnswers None "/search" "q=cats"
                   ["https://proxy.yoohoo.workers.dev"; "https://proxy1.yoohoo.workers.dev"]
                   (startWorld defaultWorkers 1000)))
           120%N (okResponse echoPayload) echoPayload)
    as (w' & new & wf & H1 & H2 & H3 & H4 & H5 & H6 & _ & _ & H7 & _).
  - reflexivity.
  - vm_compute. reflexivity.
  - vm_compute. reflexivity.
  - vm_compute. reflexivity.
  - reflexivity.
  - reflexivity.
  - reflexivity.
  - exists w', new. split_and!; [done | done | done | done | done |].
    rewrite H7. vm_compute. reflexivity.
Defined.

(** C6, as stated, fails: a sweep does not attempt all configured
    endpoints when one of them answers.  With the constructor's six workers,
    of which the third answers, a sweep fetches from the first three only;
    the last three are not attempted. *)
Lemma C6_sweep_stops_at_first_answer :
  let run := sweep defaultConfig defaultWorkers thirdAnswers None "/search" "q=cats"
               (startWorld defaultWorkers 1000) in
  fst run = Normal echoPayload
  ∧ fetchedUrls (trace (snd run))
    = urlOf "/search" "q=cats" <$> take 3 (workerList defaultWorkers)
  ∧ length (workerList defaultWorkers) = 6%nat
  ∧ fetchedUrls (trace (snd run)) ≠ urlOf "/search" "q=cats" <$> workerList defaultWorkers
  ∧ Forall (λ worker, urlOf "/search" "q=cats" worker ∉ fetchedUrls (trace (snd run)))
           (drop 3 (workerList defaultWorkers)).
Proof.
  cbn zeta. split_and!.
  - vm_compute. reflexivity.
  - vm_compute. reflexivity.
  - reflexivity.
  - vm_compute. discriminate.
  - vm_compute. repeat constructor; intros H;
      repeat (apply elem_of_cons in H as [H|H]; [discriminate H |]);
      by apply elem_of_nil in H.
Qed.

(** C6 (amended).  A sweep attempts the workers in the listed order,
    primary first, up to and including the first one that answers, and all of
    them when none answers: if every worker fails when its turn comes, each
    is fetched once, in order, and the sweep throws; if [worker] is the first
    that does not fail, exactly the workers listed up to it are fetched, in
    order, and the sweep returns its payload; and every sweep is of one of
    these two kinds.  The health map plays no part: started from two states
    that differ only in the recorded health and the pending recovery
    callbacks, a sweep, and a whole call of [fetchWithFallback], give the
    same result and the same trace. *)
Theorem C6_fixed_order_whatever_the_health
    (cfg : Config) (ws : Workers) (network : Z → string → NetBehaviour)
    (cancelAt : option Z) (endpoint params : string) :
  (∀ w : World,
     allFail cfg network cancelAt endpoint params (workerList ws) w →
     ∃ w' new,
       sweep cfg ws network cancelAt endpoint params w
         = (Throw (Error "All workers failed"), w')
       ∧ trace w' = trace w ++ new
       ∧ fetchedUrls new = urlOf endpoint params <$> workerList ws
       ∧ recorded new = (λ worker, (worker, false)) <$> workerList ws)
  ∧ (∀ (w : World) (pre : list string) (worker : string) (post : list string),
       workerList ws = pre ++ worker :: post →
       allFail cfg network cancelAt endpoint params pre w →
       attemptFails cfg network endpoint params worker
         (afterAttempts cfg network cancelAt endpoint params pre w) = false →
       ∃ w' new latency r data,
         network (clock (afterAttempts cfg network cancelAt endpoint params pre w))
                 (urlOf endpoint params worker) = NetResponse latency r
         ∧ body r = Some data
         ∧ sweep cfg ws network cancelAt endpoint params w = (Normal data, w')
         ∧ trace w' = trace w ++ new
         ∧ fetchedUrls new = urlOf endpoint params <$> (pre ++ [worker])
         ∧ recorded new = ((λ x, (x, false)) <$> pre) ++ [(worker, true)])
  ∧ (∀ w : World,
       allFail cfg network cancelAt endpoint params (workerList ws) w
       ∨ ∃ pre worker post,
           workerList ws = pre ++ worker :: post
           ∧ allFail cfg network cancelAt endpoint params pre w
           ∧ attemptFails cfg network endpoint params worker
               (afterAttempts cfg network cancelAt endpoint params pre w) = false)
  ∧ (∀ w : World, ∃ r w' new k,
       sweep cfg ws network cancelAt endpoint params w = (r, w')
       ∧ trace w' = trace w ++ new
       ∧ (1 ≤ k ≤ length (workerList ws))%nat
       ∧ fetchedUrls new = take k (urlOf endpoint params <$> workerList ws)
       ∧ (∀ e, r = Throw e → k = length (workerList ws)))
  ∧ (∀ (w : World) (health : gmap string WorkerHealth) (pending : list (Z * string)),
       let w2 := mkWorld health pending (clock w) (abortController w) (trace w) in
       fst (sweep cfg ws network cancelAt endpoint params w2)
       = fst (sweep cfg ws network cancelAt endpoint params w)
       ∧ trace (snd (sweep cfg ws network cancelAt endpoint params w2))
         = trace (snd (sweep cfg ws network cancelAt endpoint params w)))
  ∧ (∀ (w : World) (health : gmap string WorkerHealth) (pending : list (Z * string))
       (retries : Z),
       let w2 := mkWorld health pending (clock w) (abortController w) (trace w) in
       fst (fetchWithFallback cfg ws network cancelAt endpoint params retries w2)
       = fst (fetchWithFallback cfg ws network cancelAt endpoint params retries w)
       ∧ trace (snd (fetchWithFallback cfg ws network cancelAt endpoint params retries w2))
         = trace (snd (fetchWithFallback cfg ws network cancelAt endpoint params retries w))).
Proof.
  split_and!.
  - intros w Hall.
    destruct (sweep_no_answer cfg ws network cancelAt endpoint params w Hall)
      as (w' & Hs & Htr).
    exists w', (failedAttempts endpoint params (workerList ws)). split_and!; try done.
    + apply fetchedUrls_failedAttempts.
    + apply recorded_failedAttempts.
  - intros w pre worker post Hl Hpre Hw.
    destruct (sweep_first_answer cfg ws network cancelAt endpoint params pre worker post w
                Hl Hpre Hw) as (latency & r & data & w' & Hn & Hb & Hs & Htr).
    exists w', (failedAttempts endpoint params pre ++ successfulAttempt endpoint params worker),
      latency, r, data.
    split_and!; try done.
    + by rewrite fetchedUrls_app, fetchedUrls_failedAttempts, fmap_app.
    + by rewrite recorded_app, recorded_failedAttempts.
  - intros w. apply sweep_cases.
  - intros w.
    destruct (sweep_shape cfg ws network cancelAt endpoint params w)
      as (w' & [(Hs & Htr) | (pre & worker & post & data & Hl & Hs & Htr)]).
    + eexists _, w', _, (length (workerList ws)). split_and!; try done.
      * cbn. lia.
      * rewrite fetchedUrls_failedAttempts, firstn_all2; [done |]. by rewrite length_fmap.
    + eexists _, w', _, (S (length pre)). split_and!; try done.
      * lia.
      * rewrite Hl, length_app. cbn. lia.
      * rewrite fetchedUrls_app, fetchedUrls_failedAttempts, Hl, take_fmap_through. done.
  - intros w health pending w2.
    destruct (blind_sweep cfg ws network cancelAt endpoint params w2 w) as (Hr & _ & Ht & _);
      done.
  - intros w health pending retries w2. unfold fetchWithFallback.
    destruct (blind_fetchWithFallback_from cfg ws network cancelAt endpoint params
                (Z.to_nat (maxRetries cfg - retries)) retries w2 w) as (Hr & _ & Ht & _);
      done.
Qed.

(** The third of the six default workers is the first to answer: the first
    three are fetched, in order, whatever the health map says. *)
Lemma C6_third_answers :
  ∃ w' new,
    sweep defaultConfig defaultWorkers thirdAnswers None "/search" "q=cats"
      (startWorld defaultWorkers 1000) = (Normal echoPayload, w')
    ∧ trace w' = trace (startWorld defaultWorkers 1000) ++ new
    ∧ fetchedUrls new
      = urlOf "/search" "q=cats"
          <$> ["https://proxy.yoohoo.workers.dev"; "https://proxy1.yoohoo.workers.dev";
               "https://proxy2.yoohoo.workers.dev"].
Proof.
  destruct (C6_fixed_order_whatever_the_health defaultConfig defaultWorkers thirdAnswers None
              "/search" "q=cats") as (_ & H & _).
  destruct (H (startWorld defaultWorkers 1000)
              ["https://proxy.yoohoo.workers.dev"; "https://proxy1.yoohoo.workers.dev"]
              "https://proxy2.yoohoo.workers.dev"
              ["https://proxy3.yoohoo.workers.dev"; "https://proxy4.yoohoo.workers.dev";
               "https://proxy5.yoohoo.workers.dev"])
    as (w' & new & latency & r & data & Hn & Hb & Hs & Htr & Hf & _).
  - reflexivity.
  - intros i worker Hi.
    destruct i as [|[|i]]; cbn in Hi; simplify_eq; vm_compute; reflexivity.
  - vm_compute. reflexivity.
  - exists w', new. split_and!; [| done | done].
    rewrite Hs. do 2 f_equal.
    assert (Hd : Some data = Some echoPayload); [| by injection Hd].
    rewrite <- Hb.
    assert (Hr : NetResponse latency r = NetResponse 120%N (okResponse echoPayload));
      [| by injection Hr as _ ->].
    rewrite <- Hn. vm_compute. reflexivity.
Defined.


(** C9.  An attempt fails, that is [fetchFromWorker] throws, exactly in the
    cases of [failing]: no answer or a late one (timeout), a connection
    error, a status outside 200-299, a body that is not JSON, a payload that
    is falsy or empty.  The loop body catches every such failure: it returns
    normally after one fetch and after recording the failure for that worker,
    and the loop goes on with the next worker.  Recording means the health
    map: the record of the worker is the one the attempt found with the
    failure branch of [updateWorkerStatus] applied, its failure credit one
    more, its success credit one less (not below 0), unhealthy once the
    failure credit is 3, and a recovery callback is armed.  The loop never
    throws, and the only error [fetchWithFallback] ever throws is "All
    workers failed". *)
Theorem C9_endpoint_failures_absorbed
    (cfg : Config) (ws : Workers) (network : Z → string → NetBehaviour)
    (cancelAt : option Z) (endpoint params : string) :
  (∀ (timeout : Z) (latency : N) (reason : string) (r : Response),
     failing timeout NetHang = true
     ∧ failing timeout (NetError latency reason) = true
     ∧ ((Z.to_N timeout ≤ latency)%N → failing timeout (NetResponse latency r) = true)
     ∧ (ok r = false → failing timeout (NetResponse latency r) = true)
     ∧ (body r = None → failing timeout (NetResponse latency r) = true)
     ∧ (∀ data, body r = Some data → invalidPayload data = true →
          failing timeout (NetResponse latency r) = true))
  ∧ (∀ (worker : string) (w : World),
       failing (requestTimeout cfg) (network (clock w) (urlOf endpoint params worker)) = true
       ↔ ∃ e w1, fetchFromWorker cfg network cancelAt worker endpoint params w = (Throw e, w1))
  ∧ (∀ (worker : string) (rest : list string) (w : World),
       failing (requestTimeout cfg) (network (clock w) (urlOf endpoint params worker)) = true →
       ∃ w' e wf,
         fetchFromWorker cfg network cancelAt worker endpoint params w = (Throw e, wf)
         ∧ w' = updateWorkerStatus worker false 0%float wf
         ∧ tryWorker cfg network cancelAt endpoint params worker w = (Normal None, w')
         ∧ trace w' = trace w ++ [EFetch (urlOf endpoint params worker); ERecord worker false]
         ∧ healthOf worker w' = Some (onFailure (touch (clock wf) (current worker wf)))
         ∧ errorCount (current worker w') = errorCount (current worker wf) + 1
         ∧ successCount (current worker w') = Z.max 0 (successCount (current worker w) - 1)
         ∧ (3 ≤ errorCount (current worker w') → healthy (current worker w') = false)
         ∧ timers w' = timers wf ++ [(clock wf + 300000, worker)]
         ∧ (∀ other, other ≠ worker → healthOf other w' = healthOf other wf)
         ∧ forWorkers cfg network cancelAt endpoint params (worker :: rest) w
           = forWorkers cfg network cancelAt endpoint params rest w')
  ∧ (∀ (workers : list string) (w : World) (e : JsError) (w' : World),
       forWorkers cfg network cancelAt endpoint params workers w ≠ (Throw e, w'))
  ∧ (∀ (retries : Z) (w : World) (e : JsError) (w' : World),
       fetchWithFallback cfg ws network cancelAt endpoint params retries w = (Throw e, w') →
       e = Error "All workers failed").
Proof.
  split_and!.
  - intros timeout latency reason r. split_and!; try done.
    + intros Hl. cbn. apply N.ltb_ge in Hl. by rewrite Hl.
    + intros Hok. cbn. rewrite Hok. by destruct (latency <? Z.to_N timeout)%N.
    + intros Hb. cbn. rewrite Hb. by rewrite !orb_true_r.
    + intros data Hb Hi. cbn. rewrite Hb, Hi. by rewrite !orb_true_r.
  - intros worker w.
    destruct (fetchFromWorker_spec cfg network cancelAt endpoint params worker w)
      as (w1 & _ & H).
    destruct (failing _ _).
    + destruct H as (e & ->). split; [by eexists _, _ | done].
    + destruct H as (? & ? & data & _ & _ & ->). split; [done | by intros (? & ? & ?)].
  - intros worker rest w Hf.
    destruct (tryWorker_failure cfg network cancelAt endpoint params worker w Hf)
      as (e & wf & Hfetch & Htr & Htry).
    assert (Hcur : current worker (updateWorkerStatus worker false 0%float wf)
                   = onFailure (touch (clock wf) (current worker wf)))
      by by rewrite TrackerFacts.current_updateWorkerStatus.
    exists (updateWorkerStatus worker false 0%float wf), e, wf.
    split_and!; try done.
    + rewrite trace_updateWorkerStatus, Htr, <- app_assoc. reflexivity.
    + by rewrite TrackerFacts.lookup_updateWorkerStatus.
    + by rewrite Hcur.
    + rewrite Hcur. cbn.
      pose proof (successCount_fetchFromWorker cfg network cancelAt endpoint params
                    worker worker w) as Hs.
      rewrite Hfetch in Hs. cbn [snd] in Hs. by rewrite Hs.
    + rewrite Hcur. cbn. intros H3.
      destruct (Z.leb_spec 3 (errorCount (current worker wf) + 1)); [done | lia].
    + intros other Hne. by apply TrackerFacts.lookup_updateWorkerStatus_ne.
    + cbn [forWorkers]. unfold bind. by rewrite Htry.
  - intros workers w e w' Hrun.
    destruct (forWorkers_shape cfg network cancelAt endpoint params workers w)
      as (v & [(Hv & _) | (? & ? & ? & data & _ & Hv & _)]);
      rewrite Hrun in Hv; discriminate.
  - intros retries w e w' Hrun. unfold fetchWithFallback in Hrun.
    destruct (fetchWithFallback_from_shape cfg ws network cancelAt endpoint params
                (Z.to_nat (maxRetries cfg - retries)) retries w)
      as (r & v & sweeps & Hr & _ & [(-> & _) | (? & ? & ? & ? & ? & _ & _ & -> & _)]);
      rewrite Hrun in Hr; by simplify_eq.
Qed.

(** [executeSearch] catches whatever [fetchWithFallback] throws, so the
    [AbortError] branch of [performSearch] is never taken: no search ends in
    the cancelled outcome. *)
Lemma performSearch_never_cancelled
    (cfg : Config) (ws : Workers) (network : Z → string → NetBehaviour)
    (cancelAt : option Z) (ToString : JsonVal → string)
    (searchQuery endpoint params : string) (w : World) :
  ∃ outcome w',
    performSearch cfg ws network cancelAt ToString searchQuery endpoint params w
      = (Normal outcome, w')
    ∧ outcome ≠ CancelledLogged.
Proof.
  unfold performSearch. destruct (String.eqb searchQuery EmptyString).
  { by eexists _, _. }
  unfold bind, call, try_catch, executeSearch, try_catch, bind. cbn.
  destruct (fetchWithFallback _ _ _ _ _ _ _ _) as [[response|e] w1]; cbn.
  - destruct (property "error" response) as [err|]; cbn; [| by eexists _, _].
    destruct (truthy err); cbn; [| by eexists _, _].
    destruct (includes "CORS" _ || includes "NetworkError" _); by eexists _, _.
  - destruct (includes "CORS" _ || includes "NetworkError" _); by eexists _, _.
Qed.

(** C4, evaluated.  All workers hang; the search starts at clock 1000 and the
    caller's controller is aborted at 1010, while the first request is in
    flight, or at 91500, during the first backoff wait.  In both runs the
    signal is set, yet the first worker is recorded as failed (at its
    15000 ms timeout), all 24 attempts and the three waits take place, and the
    user interface shows the generic failure. *)
Lemma C4_cancellation_is_ignored :
  let ignored (cancelAt : Z) :=
    let run := performSearch defaultConfig defaultWorkers allHang (Some cancelAt) noErrorField
                 "cats" "/search" "q=cats" (startWorld defaultWorkers 1000) in
    fst run = Normal (ErrorShown "Search failed. Please try again.")
    ∧ abortController (snd run) = Some (mkController true)
    ∧ take 2 (trace (snd run))
      = [EFetch "https://proxy.yoohoo.workers.dev/search?q=cats";
         ERecord "https://proxy.yoohoo.workers.dev" false]
    ∧ length (fetchedUrls (trace (snd run))) = 24%nat
    ∧ recorded (trace (snd run))
      = concat (replicate 4 ((λ x, (x, false)) <$> workerList defaultWorkers))
    ∧ delays (trace (snd run)) = [1000; 2000; 3000] in
  ignored 1010 ∧ ignored 91500.
Proof.
  split; vm_compute; done.
Qed.

(** Non-vacuity of C9 on the constructor's configuration: a hanging first
    worker is recorded as failed, with failure credit 1 and a recovery
    callback due five minutes after the timeout, and the loop moves on to the
    fallbacks. *)
Lemma C9_hanging_primary_absorbed :
  ∃ w',
    tryWorker defaultConfig allHang None "/search" "q=cats" (primary defaultWorkers)
        (startWorld defaultWorkers 0) = (Normal None, w')
    ∧ trace w' = trace (startWorld defaultWorkers 0)
                 ++ [EFetch (urlOf "/search" "q=cats" (primary defaultWorkers));
                     ERecord (primary defaultWorkers) false]
    ∧ healthOf (primary defaultWorkers) w' = Some (mkHealth true 15000 0%float 1 0)
    ∧ timers w' = [(315000, primary defaultWorkers)]
    ∧ forWorkers defaultConfig allHang None "/search" "q=cats"
        (primary defaultWorkers :: fallbacks defaultWorkers) (startWorld defaultWorkers 0)
      = forWorkers defaultConfig allHang None "/search" "q=cats"
          (fallbacks defaultWorkers) w'.
Proof.
  destruct (C9_endpoint_failures_absorbed defaultConfig defaultWorkers allHang None
              "/search" "q=cats") as (_ & _ & H & _).
  destruct (H (primary defaultWorkers) (fallbacks defaultWorkers) (startWorld defaultWorkers 0))
    as (w' & e & wf & Hfetch & Hw' & Htry & Htr & Hh & _ & _ & _ & Ht & _ & Hloop);
    [reflexivity |].
  assert (Hwf : wf = snd (fetchFromWorker defaultConfig allHang None
                            (primary defaultWorkers) "/search" "q=cats"
                            (startWorld defaultWorkers 0))) by by rewrite Hfetch.
  exists w'. split; [exact Htry |]. split; [exact Htr |].
  split; [rewrite Hh, Hwf; vm_compute; reflexivity |].
  split; [rewrite Ht, Hwf; vm_compute; reflexivity |].
  exact Hloop.
Defined.


End FetchClaims.

(** * Strings *)

Module StringFacts.

Lemma length_append (s t : string) :
  String.length (s +:+ t) = (String.length s + String.length t)%nat.
Proof.
  induction s as [|a s IH]; [reflexivity |].
  change (String a s +:+ t) with (String a (s +:+ t)).
  cbn [String.length]. by rewrite IH.
Qed.

End StringFacts.

(** * Properties of the search history *)

Module HistoryFacts.

Import History.

Lemma take_app_take {A} (n : nat) (l m : list A) :
  take n (l ++ take n m) = take n (l ++ m).
Proof. rewrite !take_app, take_take. do 2 f_equal. lia. Qed.

Section Facts.

Variable stringify : list HistoryEntry → string.

(** One call: the new entry in front, cut to 50. *)
Lemma addToHistory_take (c : Search) (s : Store) :
  (length (searchHistory s) ≤ 50)%nat →
  searchHistory (addToHistory stringify c s) = take 50 (entryOf c :: searchHistory s).
Proof.
  intros Hlen. unfold addToHistory. cbn [searchHistory].
  fold (entryOf c).
  destruct (Nat.ltb_spec 50 (length (entryOf c :: searchHistory s))) as [Hgt|Hle].
  - unfold pop. rewrite removelast_firstn_len. cbn [length] in *.
    replace (Nat.pred (S (length (searchHistory s)))) with 50%nat by lia. done.
  - cbn [length] in Hle. rewrite take_ge; [done |]. cbn [length]. lia.
Qed.

Lemma addAll_take (cs : list Search) (s : Store) :
  (length (searchHistory s) ≤ 50)%nat →
  searchHistory (addAll stringify cs s)
  = take 50 (reverse (entryOf <$> cs) ++ searchHistory s).
Proof.
  revert s. induction cs as [|c cs IH]; intros s Hlen.
  - cbn. by rewrite take_ge.
  - cbn [addAll foldl]. fold (addAll stringify cs (addToHistory stringify c s)).
    rewrite IH.
    + rewrite addToHistory_take by done. rewrite take_app_take.
      cbn [fmap list_fmap]. rewrite reverse_cons, <- app_assoc. done.
    + rewrite addToHistory_take by done. rewrite length_take. lia.
Qed.

Lemma storage_addToHistory (c : Search) (s : Store) (key : string) :
  localStorage (addToHistory stringify c s) !! key
  = if decide (key = "searchHistory")
    then Some (stringify (searchHistory (addToHistory stringify c s)))
    else localStorage s !! key.
Proof.
  unfold addToHistory. cbn [localStorage searchHistory].
  case_decide as Hk.
  - subst. by rewrite lookup_insert_eq.
  - by rewrite lookup_insert_ne.
Qed.

End Facts.

(** X1.  Starting from the empty history the constructor sets, after any
    run of searches [this.searchHistory] holds the entries of the 50 most
    recent ones, newest first; repeated queries are kept, and the array never
    has more than 50 elements. *)
Theorem history_is_the_fifty_newest
    (stringify : list HistoryEntry → string) (storage : gmap string string)
    (cs : list Search) :
  searchHistory (addAll stringify cs (freshStore storage))
  = take 50 (reverse (entryOf <$> cs))
  ∧ (length (searchHistory (addAll stringify cs (freshStore storage))) ≤ 50)%nat.
Proof.
  assert (H : searchHistory (addAll stringify cs (freshStore storage))
              = take 50 (reverse (entryOf <$> cs))).
  { rewrite addAll_take by (cbn; lia). cbn. by rewrite app_nil_r. }
  split; [exact H |]. rewrite H, length_take. lia.
Qed.

(** X2.  After every search the [searchHistory] key of [localStorage] holds
    the serialisation of the array as it is in memory, and no other key of
    the storage has changed. *)
Theorem history_is_mirrored_in_storage
    (stringify : list HistoryEntry → string) (storage : gmap string string)
    (cs : list Search) (c : Search) (key : string) :
  let s := addAll stringify (cs ++ [c]) (freshStore storage) in
  localStorage s !! "searchHistory" = Some (stringify (searchHistory s))
  ∧ (key ≠ "searchHistory" → localStorage s !! key = storage !! key).
Proof.
  cbn zeta. unfold addAll. rewrite foldl_app. cbn [foldl].
  fold (addAll stringify cs (freshStore storage)).
  split.
  - rewrite storage_addToHistory. by rewrite decide_True.
  - intros Hk. rewrite storage_addToHistory, decide_False by done.
    induction cs as [|c' cs IH] using rev_ind; [done |].
    unfold addAll. rewrite foldl_app. cbn [foldl].
    fold (addAll stringify cs (freshStore storage)).
    by rewrite storage_addToHistory, decide_False.
Qed.

(** A stored key other than the history survives two searches. *)
Lemma history_keeps_other_keys :
  let s := addAll (fun _ => "[...]")
             ([mkSearch "cats" "web" "2024-01-01T00:00:00.000Z" 0]
              ++ [mkSearch "dogs" "web" "2024-01-01T00:00:05.000Z" 0])
             (freshStore {["searchConfig" := "{}"]}) in
  localStorage s !! "searchHistory" = Some "[...]"
  ∧ localStorage s !! "searchConfig" = Some "{}".
Proof.
  destruct (history_is_mirrored_in_storage (fun _ => "[...]") {["searchConfig" := "{}"]}
              [mkSearch "cats" "web" "2024-01-01T00:00:00.000Z" 0]
              (mkSearch "dogs" "web" "2024-01-01T00:00:05.000Z" 0)
              "searchConfig") as [H1 H2].
  split; [exact H1 |]. rewrite H2; [reflexivity | discriminate].
Defined.

End HistoryFacts.

(** * Properties of the settings checksum *)

Module ChecksumFacts.

Import Checksum StringFacts.

Lemma toInt32_range (z : Z) : - 2 ^ 31 ≤ toInt32 z < 2 ^ 31.
Proof. unfold toInt32. pose proof (Z.mod_pos_bound (z + 2 ^ 31) (2 ^ 32)). lia. Qed.

Lemma toInt32_small (z : Z) : - 2 ^ 31 ≤ z < 2 ^ 31 → toInt32 z = z.
Proof. intros H. unfold toInt32. rewrite Z.mod_small; lia. Qed.

Lemma toInt32_congr (a b : Z) : toInt32 a = toInt32 b ↔ (a - b) mod 2 ^ 32 = 0.
Proof.
  unfold toInt32. split; intros H.
  - assert (E : (a + 2 ^ 31) mod 2 ^ 32 = (b + 2 ^ 31) mod 2 ^ 32) by lia.
    replace (a - b) with ((a + 2 ^ 31) - (b + 2 ^ 31)) by lia.
    rewrite Zminus_mod, E, Z.sub_diag. reflexivity.
  - assert (E : (a + 2 ^ 31) mod 2 ^ 32 = (b + 2 ^ 31) mod 2 ^ 32); [| lia].
    replace (a + 2 ^ 31) with ((b + 2 ^ 31) + (a - b)) by lia.
    rewrite Zplus_mod, H, Z.add_0_r, Z.mod_mod; lia.
Qed.

Lemma toInt32_of_toInt32_affine (k z c : Z) :
  toInt32 (k * toInt32 z + c) = toInt32 (k * z + c).
Proof.
  apply toInt32_congr.
  replace (k * toInt32 z + c - (k * z + c)) with (k * (toInt32 z - z)) by lia.
  unfold toInt32.
  rewrite (Z.mod_eq (z + 2 ^ 31) (2 ^ 32)) by lia.
  replace (k * (z + 2 ^ 31 - 2 ^ 32 * ((z + 2 ^ 31) / 2 ^ 32) - 2 ^ 31 - z))
    with ((- k * ((z + 2 ^ 31) / 2 ^ 32)) * 2 ^ 32) by lia.
  apply Z.mod_mul. lia.
Qed.

(** One round of the loop multiplies by 31 and adds the code unit, modulo
    2^32. *)
Lemma step_spec (hash char : Z) :
  - 2 ^ 31 ≤ hash < 2 ^ 31 → step hash char = toInt32 (31 * hash + char).
Proof.
  intros Hh. unfold step, bitAnd, shiftLeft. cbn zeta.
  rewrite Z.land_diag, (toInt32_small hash) by done.
  change (5 mod 32) with 5. rewrite Z.shiftl_mul_pow2 by lia.
  replace (toInt32 (hash * 2 ^ 5) - hash + char)
    with (1 * toInt32 (hash * 2 ^ 5) + (char - hash)) by lia.
  rewrite toInt32_of_toInt32_affine. f_equal. lia.
Qed.

(** The subtraction and the addition of the loop body stay far inside the
    integers that a number holds exactly. *)
Lemma step_arithmetic_exact (hash char : Z) :
  - 2 ^ 31 ≤ hash < 2 ^ 31 → 0 ≤ char < 65536 →
  exactInteger (shiftLeft hash 5 - hash)
  ∧ exactInteger (shiftLeft hash 5 - hash + char).
Proof.
  intros Hh Hc. unfold exactInteger, shiftLeft.
  pose proof (toInt32_range (Z.shiftl (toInt32 hash) (5 mod 32))). lia.
Qed.

Lemma hashLoop_from (str : list Z) (h p : Z) :
  h = toInt32 p → foldl step h str = toInt32 (foldl (fun acc c => 31 * acc + c) p str).
Proof.
  revert h p. induction str as [|c str IH]; intros h p ->; [done |].
  cbn [foldl]. apply IH.
  rewrite step_spec by apply toInt32_range.
  apply toInt32_of_toInt32_affine.
Qed.

Lemma hashLoop_spec (str : list Z) : hashLoop str = toInt32 (polynomial str).
Proof. unfold hashLoop, polynomial. by apply hashLoop_from. Qed.

(** X3.  The loop of [generateChecksum] computes the polynomial
    [c0 * 31^(n-1) + ... + c(n-1)] of the code units reduced modulo 2^32 into
    the signed 32-bit range. *)
Theorem checksum_is_polynomial_mod_2_32 (str : list Z) :
  hashLoop str = toInt32 (polynomial str)
  ∧ - 2 ^ 31 ≤ hashLoop str < 2 ^ 31.
Proof.
  split; [apply hashLoop_spec |]. rewrite hashLoop_spec. apply toInt32_range.
Qed.

(** Reading the digits back gives the absolute value. *)
Lemma digits_toString16 (z : Z) : HexString.Raw.to_N (toString16 z) 0 = Z.abs_N z.
Proof.
  destruct z as [|p|p]; [done | |].
  - cbn [toString16]. by rewrite HexString.Raw.to_N_of_pos.
  - cbn [toString16 String.append HexString.Raw.to_N].
    change (HexString.Raw.to_N (HexString.Raw.of_pos p EmptyString) 0 = Z.abs_N (Z.neg p)).
    by rewrite HexString.Raw.to_N_of_pos.
Qed.

Lemma toString16_inj (a b : Z) : toString16 a = toString16 b → a = b.
Proof.
  intros H.
  assert (Habs : Z.abs_N a = Z.abs_N b) by (by rewrite <- !digits_toString16, H).
  destruct a as [|p|p], b as [|q|q]; try done; cbn in Habs; simplify_eq; try done.
  all: apply (f_equal String.length) in H; cbn [toString16] in H;
    rewrite length_append in H; cbn [String.length] in H; lia.
Qed.

(** X4.  Two settings objects get the same checksum string exactly when
    the polynomials of their serialisations agree modulo 2^32. *)
Theorem checksums_agree_iff
    (Settings : Type) (stringify : Settings → list Z) (s1 s2 : Settings) :
  generateChecksum Settings stringify s1 = generateChecksum Settings stringify s2
  ↔ (polynomial (stringify s1) - polynomial (stringify s2)) mod 2 ^ 32 = 0.
Proof.
  unfold generateChecksum. rewrite <- toInt32_congr, !hashLoop_spec.
  split; [apply toString16_inj | by intros ->].
Qed.

End ChecksumFacts.

(** * Properties of the display helpers *)

Module FormattingFacts.

Import Formatting StringFacts.

Lemma length_substring_prefix (n : nat) (s : string) :
  (n ≤ String.length s)%nat → String.length (String.substring 0 n s) = n.
Proof.
  revert n. induction s as [|a s IH]; intros n Hn; cbn in Hn.
  - by replace n with O by lia.
  - destruct n as [|n]; [done |]. cbn. rewrite IH; lia.
Qed.

(** X5.  [shortenUrl] and [truncateText] return their argument when it has
    at most [maxLength] code units and otherwise its first [maxLength] code
    units followed by three dots.  The result of a cut is therefore
    [maxLength + 3] long, which is longer than the argument itself whenever
    the argument exceeds [maxLength] by one or two code units. *)
Theorem shortening_may_lengthen (s : string) (maxLength : Z) :
  let len := Z.of_nat (String.length s) in
  (len ≤ maxLength → shortenUrl s maxLength = s)
  ∧ (maxLength < len →
       shortenUrl s maxLength = String.substring 0 (Z.to_nat maxLength) s +:+ "..."
       ∧ Z.of_nat (String.length (shortenUrl s maxLength)) = Z.max 0 maxLength + 3)
  ∧ (len < Z.of_nat (String.length (shortenUrl s maxLength))
     ↔ maxLength < len < Z.max 0 maxLength + 3)
  ∧ (s ≠ EmptyString → truncateText s maxLength = shortenUrl s maxLength)
  ∧ truncateText EmptyString maxLength = EmptyString.
Proof.
  cbn zeta.
  assert (Hcut : Z.of_nat (String.length s) > maxLength →
            Z.of_nat (String.length (String.substring 0 (Z.to_nat maxLength) s +:+ "..."))
            = Z.max 0 maxLength + 3).
  { intros Hgt. rewrite length_append, length_substring_prefix by lia. cbn. lia. }
  unfold truncateText, shortenUrl.
  destruct (Z.leb_spec (Z.of_nat (String.length s)) maxLength) as [Hle|Hgt].
  - split_and!; try done; try lia.
    intros Hs. destruct (String.eqb_spec s EmptyString); done.
  - split_and!; try done; try lia.
    + intros _. split; [done | apply Hcut; lia].
    + intros Hs. destruct (String.eqb_spec s EmptyString); done.
Qed.

(** A 51-character URL comes back 53 characters long. *)
Lemma shortening_may_lengthen_example :
  let url := "https://example.org/a/path/of/fifty-one/characters_" in
  String.length url = 51%nat
  ∧ shortenUrl url 50 = "https://example.org/a/path/of/fifty-one/characters..."
  ∧ Z.of_nat (String.length (shortenUrl url 50)) = Z.max 0 50 + 3.
Proof.
  intros url. split; [reflexivity |].
  destruct (shortening_may_lengthen url 50) as (_ & H & _).
  destruct H as [H1 H2]; [cbn; lia |].
  split; [rewrite H1; reflexivity | exact H2].
Defined.

Section RelativeTimeFacts.

Variable parseDate : string → option Z.
Variable toLocaleDateString : Z → string.

(** X6.  For a valid date [formatRelativeTime] depends only on the whole
    number [d] of milliseconds elapsed: below one minute, and for every date
    in the future, it says "Just now"; from one minute on it counts whole
    minutes, from one hour whole hours, from one day whole days, each rounded
    down, and from 31 days on it prints the date itself.  An empty argument
    gives the empty string and an invalid date "Just now". *)
Theorem relative_time_by_elapsed_ms (now : Z) (dateString : string) :
  formatRelativeTime parseDate toLocaleDateString now dateString =
  if String.eqb dateString EmptyString then EmptyString
  else match parseDate dateString with
       | None => "Just now"
       | Some date =>
           let d := now - date in
           if d <? 60000 then "Just now"
           else if d <? 3600000 then ago (d / 60000) "minute"
           else if d <? 86400000 then ago (d / 3600000) "hour"
           else if d <? 2678400000 then ago (d / 86400000) "day"
           else toLocaleDateString date
       end.
Proof.
  unfold formatRelativeTime.
  destruct (String.eqb dateString EmptyString); [done |].
  destruct (parseDate dateString) as [date|]; [| done]. cbn zeta.
  set (d := now - date).
  assert (Hmin : d / 1000 / 60 = d / 60000) by (rewrite Z.div_div by lia; done).
  assert (Hhour : d / 1000 / 60 / 60 = d / 3600000)
    by (rewrite !Z.div_div by lia; done).
  assert (Hday : d / 1000 / 60 / 60 / 24 = d / 86400000)
    by (rewrite !Z.div_div by lia; done).
  rewrite Hday, Hhour, Hmin.
  clearbody d. clear Hmin Hhour Hday.
  destruct (Z.ltb_spec d 60000), (Z.ltb_spec d 3600000), (Z.ltb_spec d 86400000),
    (Z.ltb_spec d 2678400000); try (exfalso; Z.div_mod_to_equations; lia);
    destruct (Z.ltb_spec 30 (d / 86400000)); try (exfalso; Z.div_mod_to_equations; lia);
    destruct (Z.ltb_spec 0 (d / 86400000)); try (exfalso; Z.div_mod_to_equations; lia);
    destruct (Z.ltb_spec 0 (d / 3600000)); try (exfalso; Z.div_mod_to_equations; lia);
    destruct (Z.ltb_spec 0 (d / 60000)); try (exfalso; Z.div_mod_to_equations; lia); reflexivity.
Qed.

End RelativeTimeFacts.

Lemma padStart2_width (x : Z) :
  0 ≤ x < 60 → String.length (padStart2 (pretty x)) = 2%nat.
Proof.
  intros Hx.
  assert (H : ∃ n, (n < 60)%nat ∧ x = Z.of_nat n) by (exists (Z.to_nat x); lia).
  destruct H as (n & Hn & ->). clear Hx.
  do 60 (destruct n as [|n]; [vm_compute; reflexivity |]). lia.
Qed.

(** X7.  For a whole number of seconds [n] with [0 < n < 2^53],
    [formatDuration] prints
    [H:MM:SS] when [n] is an hour or more and [M:SS] otherwise, where the
    fields are the hours, minutes and seconds of [n]
    ([n = H * 3600 + MM * 60 + SS] with [MM], [SS] below 60) and [MM] (after
    an hour field) and [SS] are exactly two digits wide.  For 0 it prints
    nothing. *)
Theorem duration_fields (n : Z) :
  0 < n < 2 ^ 53 →
  let H := n / 3600 in
  let MM := n mod 3600 / 60 in
  let SS := n mod 60 in
  formatDuration n
  = (if 3600 <=? n
     then pretty H +:+ ":" +:+ padStart2 (pretty MM) +:+ ":" +:+ padStart2 (pretty SS)
     else pretty MM +:+ ":" +:+ padStart2 (pretty SS))
  ∧ n = H * 3600 + MM * 60 + SS
  ∧ 0 ≤ MM < 60 ∧ 0 ≤ SS < 60
  ∧ String.length (padStart2 (pretty MM)) = 2%nat
  ∧ String.length (padStart2 (pretty SS)) = 2%nat
  ∧ formatDuration 0 = EmptyString.
Proof.
  intros [Hn _]. cbn zeta.
  assert (HM : 0 ≤ n mod 3600 / 60 < 60).
  { pose proof (Z.mod_pos_bound n 3600). split.
    - apply Z.div_pos; lia.
    - apply Z.div_lt_upper_bound; lia. }
  assert (HS : 0 ≤ n mod 60 < 60) by (apply Z.mod_pos_bound; lia).
  split_and!; try lia; try (by apply padStart2_width); try reflexivity.
  - unfold formatDuration.
    destruct (Z.eqb_spec n 0); [lia |].
    rewrite !Z.rem_mod_nonneg by lia.
    destruct (Z.ltb_spec 0 (n / 3600)), (Z.leb_spec 3600 n); try reflexivity.
    + exfalso. assert (n / 3600 = 0) by (apply Z.div_small; lia). lia.
    + exfalso. assert (0 < n / 3600) by (apply Z.div_str_pos; lia). lia.
  - clear HM HS. Z.div_mod_to_equations. lia.
Qed.

(** One hour, one minute and one second. *)
Lemma duration_fields_example : formatDuration 3661 = "1:01:01".
Proof.
  destruct (duration_fields 3661) as (H & _); [lia |].
  rewrite H. vm_compute. reflexivity.
Defined.

End FormattingFacts.

(** * Which section is shown *)

Module SectionsFacts.

Import Sections.

(** X8.  After [showSection(section)] the hero section is hidden, and each
    of the results, images, videos and news sections is hidden unless
    [section] is its own name; classes other than [hidden] are left as they
    were.  [executeSearch] passes the current category: for the categories
    web, all, massive, weather and github, which are not section names, all
    five sections end up hidden. *)
Theorem showSection_visibility (section : string) (e : Elements) :
  let e' := showSection section e in
  "hidden" ∈ heroSection e'
  ∧ ("hidden" ∉ resultsSection e' ↔ section = "results")
  ∧ ("hidden" ∉ imagesSection e' ↔ section = "images")
  ∧ ("hidden" ∉ videosSection e' ↔ section = "videos")
  ∧ ("hidden" ∉ newsSection e' ↔ section = "news")
  ∧ (∀ c, c ≠ "hidden" →
       (c ∈ heroSection e' ↔ c ∈ heroSection e)
       ∧ (c ∈ resultsSection e' ↔ c ∈ resultsSection e)
       ∧ (c ∈ imagesSection e' ↔ c ∈ imagesSection e)
       ∧ (c ∈ videosSection e' ↔ c ∈ videosSection e)
       ∧ (c ∈ newsSection e' ↔ c ∈ newsSection e))
  ∧ (section ∈ ["web"; "all"; "massive"; "weather"; "github"] →
       Forall (λ classList, "hidden" ∈ classList) (classLists e')).
Proof.
  cbn zeta. unfold showSection, addHidden, removeHidden, classLists.
  destruct (String.eqb_spec section "results") as [->|H1];
    [| destruct (String.eqb_spec section "images") as [->|H2];
       [| destruct (String.eqb_spec section "videos") as [->|H3];
          [| destruct (String.eqb_spec section "news") as [->|H4]]]];
    cbn; split_and!; try set_solver.
  all: intros _; repeat constructor; set_solver.
Qed.

(** A web search: every section is hidden afterwards. *)
Lemma showSection_web_hides_everything :
  Forall (λ classList, "hidden" ∈ classList)
         (classLists (showSection "web" (mkElements ∅ {["hidden"]} {["hidden"]}
                                            {["hidden"]} {["hidden"]}))).
Proof.
  destruct (showSection_visibility "web"
              (mkElements ∅ {["hidden"]} {["hidden"]} {["hidden"]} {["hidden"]}))
    as (_ & _ & _ & _ & _ & _ & H).
  apply H. set_solver.
Defined.

End SectionsFacts.

(** * Browser storage *)

Module StorageFacts.

Import Storage.

Lemma lookup_foldl_delete (keys : list string) (m : gmap string string) (k : string) :
  foldl (fun acc key => delete key acc) m keys !! k
  = if decide (k ∈ keys) then None else m !! k.
Proof.
  revert m. induction keys as [|x keys IH]; intros m; cbn.
  - by rewrite decide_False by set_solver.
  - rewrite IH. destruct (decide (k ∈ keys)) as [Hin|Hnin].
    + by rewrite decide_True by set_solver.
    + destruct (decide (k = x)) as [->|Hne].
      * rewrite decide_True by set_solver. apply lookup_delete_eq.
      * rewrite decide_False by set_solver. by apply lookup_delete_ne.
Qed.

Lemma lookup_clearLocalStorageByPrefix (prefix key : string) (m : gmap string string) :
  clearLocalStorageByPrefix prefix m !! key
  = if String.prefix prefix key && negb (bool_decide (key ∈ prototypeNames))
    then None else m !! key.
Proof.
  unfold clearLocalStorageByPrefix, objectKeys. rewrite lookup_foldl_delete.
  case_decide as Hin.
  - apply list_elem_of_In, filter_In in Hin as [Hin Hp].
    apply filter_In in Hin as [_ Hn]. by rewrite Hp, Hn.
  - destruct (String.prefix prefix key && negb (bool_decide (key ∈ prototypeNames)))
      eqn:Hc; [| reflexivity].
    apply andb_true_iff in Hc as [Hp Hn].
    destruct (m !! key) as [v|] eqn:Hk; [| reflexivity].
    exfalso. apply Hin. apply list_elem_of_In, filter_In. split; [| exact Hp].
    apply filter_In. split; [| exact Hn].
    apply list_elem_of_In, elem_of_elements, elem_of_dom. by eexists.
Qed.

Lemma search_keys_are_own (key : string) :
  String.prefix "search_" key = true → key ∉ prototypeNames.
Proof.
  intros Hkey Hin. unfold prototypeNames in Hin.
  repeat (apply elem_of_cons in Hin as [->|Hin]; [discriminate Hkey |]).
  by apply elem_of_nil in Hin.
Qed.

(** X9.  [Utils.clearLocalStorageByPrefix(prefix)] removes the items whose
    key starts with [prefix] and is listed by [Object.keys], and leaves every
    other item with its value: an item stored under the name of a member of
    [Storage.prototype] or [Object.prototype], such as [length], is never
    removed, whatever the prefix.  [clearCache] of the settings manager,
    which clears the prefix [search_], removes every item of that prefix,
    keeps the keys the application itself writes ([searchSettings],
    [searchConfig], [searchHistory], [settingsBackup], [settingsVersion]) and
    empties the session storage. *)
Theorem clearing_by_prefix (prefix : string) (b : Browser) :
  (∀ key, clearLocalStorageByPrefix prefix (localStorage b) !! key
          = if String.prefix prefix key && negb (bool_decide (key ∈ prototypeNames))
            then None else localStorage b !! key)
  ∧ (∀ key, key ∈ prototypeNames →
            clearLocalStorageByPrefix prefix (localStorage b) !! key = localStorage b !! key)
  ∧ (∀ key, key ∈ ["searchSettings"; "searchConfig"; "searchHistory";
                   "settingsBackup"; "settingsVersion"] →
            localStorage (clearCache b) !! key = localStorage b !! key)
  ∧ (∀ key, String.prefix "search_" key = true → localStorage (clearCache b) !! key = None)
  ∧ sessionStorage (clearCache b) = ∅.
Proof.
  split_and!.
  - intros key. apply lookup_clearLocalStorageByPrefix.
  - intros key Hkey. rewrite lookup_clearLocalStorageByPrefix.
    rewrite (bool_decide_eq_true_2 _ Hkey). cbn. by rewrite andb_false_r.
  - intros key Hkey. unfold clearCache. cbn [localStorage].
    rewrite lookup_clearLocalStorageByPrefix.
    repeat (apply elem_of_cons in Hkey as [->|Hkey]; [reflexivity |]).
    by apply elem_of_nil in Hkey.
  - intros key Hkey. unfold clearCache. cbn [localStorage].
    rewrite lookup_clearLocalStorageByPrefix, Hkey.
    by rewrite (bool_decide_eq_false_2 _ (search_keys_are_own key Hkey)).
  - reflexivity.
Qed.

(** A cached page goes, the saved settings stay; and an item stored as
    [length] survives the clearing of the prefix [len]. *)
Lemma clearing_by_prefix_example :
  let b := mkBrowser {["search_page1" := "cached"; "searchSettings" := "{}"; "length" := "7"]}
                     {["tab" := "1"]} in
  localStorage (clearCache b) !! "searchSettings" = Some "{}"
  ∧ localStorage (clearCache b) !! "search_page1" = None
  ∧ clearLocalStorageByPrefix "len" (localStorage b) !! "length" = Some "7".
Proof.
  intros b. destruct (clearing_by_prefix "search_" b) as (_ & _ & H1 & H2 & _).
  destruct (clearing_by_prefix "len" b) as (_ & H3 & _).
  split_and!.
  - rewrite H1; [reflexivity | set_solver].
  - apply H2. reflexivity.
  - rewrite H3; [reflexivity | set_solver].
Defined.

End StorageFacts.

(** * Properties of the search suggestions *)

Module SuggestionsFacts.

Import Tracker Orchestrator OrchestratorFacts Suggestions StringFacts.

(** ** The set idiom *)

Lemma uniq_from (seen xs : list string) :
  NoDup seen →
  let r := foldl (fun seen x => if decide (x ∈ seen) then seen else seen ++ [x]) seen xs in
  NoDup r ∧ (∀ x, x ∈ r ↔ x ∈ seen ∨ x ∈ xs) ∧ (length r ≤ length seen + length xs)%nat.
Proof.
  revert seen. induction xs as [|y xs IH]; intros seen Hnd; cbn.
  - split_and!; [done | set_solver | lia].
  - destruct (decide (y ∈ seen)) as [Hin|Hnin].
    + destruct (IH seen Hnd) as (H1 & H2 & H3). split_and!; [done | | lia].
      intros x. rewrite H2. set_solver.
    + assert (Hnd' : NoDup (seen ++ [y])).
      { apply NoDup_app. split_and!; [done | set_solver | apply NoDup_singleton]. }
      destruct (IH (seen ++ [y]) Hnd') as (H1 & H2 & H3). split_and!; [done | |].
      * intros x. rewrite H2. set_solver.
      * rewrite length_app in H3. cbn in H3. lia.
Qed.

Lemma uniq_spec (xs : list string) :
  NoDup (uniq xs) ∧ (∀ x, x ∈ uniq xs ↔ x ∈ xs) ∧ (length (uniq xs) ≤ length xs)%nat.
Proof.
  destruct (uniq_from [] xs (NoDup_nil_2)) as (H1 & H2 & H3).
  split_and!; [done | | done]. intros x. rewrite (H2 x). set_solver.
Qed.

Lemma append_inv_head (s a b : string) : s +:+ a = s +:+ b → a = b.
Proof.
  induction s as [|c s IH]; [done |].
  change (String c s +:+ a) with (String c (s +:+ a)).
  change (String c s +:+ b) with (String c (s +:+ b)).
  intros [= H]. by apply IH.
Qed.

Lemma related_distinct (query : string) :
  related query = [query +:+ " meaning"; query +:+ " definition"; query +:+ " examples"]
  ∧ NoDup (related query).
Proof.
  split; [reflexivity |]. unfold related, phrases. cbn [take].
  repeat (apply NoDup_cons; split); try apply NoDup_nil_2;
    rewrite ?elem_of_cons, ?elem_of_nil;
    intros H; repeat destruct H as [H|H]; try done;
    apply append_inv_head in H; discriminate.
Qed.

Section Facts.

Variable ws : Workers.
Variable network : Z → string → NetBehaviour.
Variable cancelAt : option Z.
Variable encodeURIComponent : string → string.
Variable toLowerCase : string → string.

Lemma historySuggestions_spec (history : list History.HistoryEntry) (query x : string) :
  x ∈ historySuggestions toLowerCase history query →
  ∃ entry, entry ∈ history ∧ x = History.query entry
           ∧ includes (toLowerCase query) (toLowerCase x) = true.
Proof.
  unfold historySuggestions. intros Hx.
  apply elem_of_take in Hx as (i & Hx & _).
  apply list_elem_of_lookup_2, list_elem_of_fmap in Hx as (entry & -> & Hentry).
  apply list_elem_of_In, filter_In in Hentry as [Hin Hinc].
  exists entry. split_and!; [by apply list_elem_of_In | done | done].
Qed.

Lemma length_historySuggestions (history : list History.HistoryEntry) (query : string) :
  (length (historySuggestions toLowerCase history query) ≤ 5)%nat.
Proof. unfold historySuggestions. rewrite length_take. lia. Qed.

(** One worker: a single fetch, at most two seconds, and whatever the reply
    offers. *)
Lemma suggestFrom_shape (query worker : string) (w : World) :
  ∃ w',
    suggestFrom network cancelAt encodeURIComponent query worker w
      = (Normal (offered (network (clock w) (suggestUrl encodeURIComponent query worker))), w')
    ∧ trace w' = trace w ++ [EFetch (suggestUrl encodeURIComponent query worker)]
    ∧ clock w ≤ clock w' ≤ clock w + 2000.
Proof.
  unfold suggestFrom, try_catch, bind, fetchWithin, jsonWithin, slice8, throw, ret.
  cbn [clock emit].
  destruct (network (clock w) (suggestUrl encodeURIComponent query worker))
    as [|latency reason|latency r]; cbn [offered].
  - eexists. split; [done |]. rewrite trace_elapse, clock_elapse. cbn. split; [done | lia].
  - destruct (N.ltb_spec latency 2000);
      (eexists; split; [done |]; rewrite trace_elapse, clock_elapse; cbn; split; [done | lia]).
  - destruct (N.ltb_spec latency 2000); cbn [andb fst snd];
      [| eexists; split; [done |]; rewrite trace_elapse, clock_elapse; cbn; split; [done | lia]].
    destruct (ok r); cbn [andb];
      [| eexists; split; [done |]; rewrite trace_elapse, clock_elapse; cbn; split; [done | lia]].
    destruct (N.ltb_spec (bodyTime r) (2000 - latency)); cbn [andb];
      [| eexists; split; [done |]; rewrite !trace_elapse, !clock_elapse; cbn;
         split; [done | lia]].
    assert (Hfin : ∀ (o : option JsonVal) v,
      v = elapse cancelAt (bodyTime r)
            (elapse cancelAt latency
               (emit (EFetch (suggestUrl encodeURIComponent query worker)) w)) →
      ∃ w', (Normal o, v) = (Normal o, w')
            ∧ trace w' = trace w ++ [EFetch (suggestUrl encodeURIComponent query worker)]
            ∧ clock w ≤ clock w' ≤ clock w + 2000).
    { intros o v ->. eexists. split; [done |].
      rewrite !trace_elapse, !clock_elapse. cbn. split; [done | lia]. }
    destruct (body r) as [data|]; [| by apply Hfin].
    destruct data as [|b|x|s|items|fields]; cbn [property]; try (by apply Hfin).
    destruct (lookupField "suggestions" fields) as [sugg|]; [| by apply Hfin].
    destruct sugg as [|b|x|s|items|fields']; cbn [truthy];
      try (by apply Hfin).
    + destruct b; by apply Hfin.
    + destruct (negb (PrimFloat.eqb x 0 || negb (PrimFloat.eqb x x))); by apply Hfin.
    + destruct (String.eqb s EmptyString); by apply Hfin.
Qed.

Lemma suggestLoop_shape (query : string) (workers : list string) (w : World) :
  ∃ r w' k,
    suggestLoop network cancelAt encodeURIComponent query workers w = (Normal r, w')
    ∧ (k ≤ length workers)%nat
    ∧ trace w' = trace w ++ (EFetch <$> (suggestUrl encodeURIComponent query <$> take k workers))
    ∧ clock w ≤ clock w' ≤ clock w + 2000 * Z.of_nat k
    ∧ match r with
      | None => k = length workers
      | Some s => ∃ t worker,
          workers !! Nat.pred k = Some worker ∧ (0 < k)%nat
          ∧ offered (network t (suggestUrl encodeURIComponent query worker)) = Some s
      end.
Proof.
  revert w. induction workers as [|x l IH]; intros w.
  - exists None, w, O. cbn. rewrite app_nil_r. split_and!; try done; lia.
  - cbn [suggestLoop]. unfold bind.
    destruct (suggestFrom_shape query x w) as (w1 & -> & Htr & Hc).
    destruct (offered (network (clock w) (suggestUrl encodeURIComponent query x)))
      as [s|] eqn:Hoff.
    + exists (Some s), w1, 1%nat. cbn. split_and!; try done; try lia.
      exists (clock w), x. split_and!; try done. lia.
    + destruct (IH w1) as (r & w' & k & -> & Hk & Htr' & Hc' & Hr).
      exists r, w', (S k). cbn [length take fmap list_fmap]. split_and!; try done; try lia.
      * rewrite Htr', Htr, <- app_assoc. done.
      * destruct r as [s|]; [| lia].
        destruct Hr as (t & worker & Hl & Hpos & Ho).
        exists t, worker. split_and!; try done; try lia.
        destruct k; [lia | done].
Qed.

(** ** Which worker is heard *)






End Facts.



(** X11.  The local list never repeats an entry and has between 3 and 8 of
    them: the queries of the history that contain the typed text (compared in
    lower case), at most five and in the order of the history, followed by
    the phrases "... meaning", "... definition" and "... examples" as far as
    they are not among those queries already. *)
Theorem local_suggestions_content
    (toLowerCase : string → string) (history : list History.HistoryEntry)
    (query : string) :
  let l := localSuggestions toLowerCase history query in
  NoDup l
  ∧ (3 ≤ length l ≤ 8)%nat
  ∧ l = uniq (historySuggestions toLowerCase history query
              ++ [query +:+ " meaning"; query +:+ " definition"; query +:+ " examples"])
  ∧ (∀ x, x ∈ l ↔
       x ∈ historySuggestions toLowerCase history query
       ∨ x ∈ [query +:+ " meaning"; query +:+ " definition"; query +:+ " examples"])
  ∧ (∀ x, x ∈ historySuggestions toLowerCase history query →
       ∃ entry, entry ∈ history ∧ x = History.query entry
                ∧ includes (toLowerCase query) (toLowerCase x) = true).
Proof.
  cbn zeta. unfold localSuggestions.
  destruct (related_distinct query) as [Hrel Hnd]. rewrite Hrel in *.
  set (hs := historySuggestions toLowerCase history query).
  set (rel := [query +:+ " meaning"; query +:+ " definition"; query +:+ " examples"]) in *.
  destruct (uniq_spec (hs ++ rel)) as (Hu1 & Hu2 & Hu3).
  assert (Hlen : (length (uniq (hs ++ rel)) ≤ 8)%nat).
  { rewrite length_app in Hu3.
    pose proof (length_historySuggestions toLowerCase history query).
    fold hs in H. cbn in Hu3. lia. }
  rewrite take_ge by done.
  split_and!; try done.
  - assert (Hsub : rel ⊆+ uniq (hs ++ rel)).
    { apply NoDup_submseteq; [done |]. intros x Hx. apply Hu2. set_solver. }
    apply submseteq_length in Hsub. cbn in Hsub. lia.
  - intros x. rewrite Hu2. set_solver.
  - intros x Hx. by apply historySuggestions_spec.
Qed.

(** X12.  [showSuggestions] never throws.  For a typed text of fewer than
    two code units it does nothing at all: no request is made and the
    dropdown is not touched.  Otherwise, when no worker offers suggestions,
    it shows the local list, which is never empty. *)
Theorem showSuggestions_behaviour
    (ws : Workers) (network : Z → string → NetBehaviour) (cancelAt : option Z)
    (encodeURIComponent toLowerCase : string → string)
    (history : list History.HistoryEntry) (query : string) (w : World) :
  (∃ d w', showSuggestions ws network cancelAt encodeURIComponent toLowerCase history query w
           = (Normal d, w'))
  ∧ ((String.length query < 2)%nat →
       showSuggestions ws network cancelAt encodeURIComponent toLowerCase history query w
       = (Normal Untouched, w))
  ∧ ((2 ≤ String.length query)%nat →
     (∀ t url, offered (network t url) = None) →
     ∃ w', showSuggestions ws network cancelAt encodeURIComponent toLowerCase history query w
           = (Normal (Shown (JStr <$> localSuggestions toLowerCase history query)), w')
           ∧ localSuggestions toLowerCase history query ≠ []).
Proof.
  unfold showSuggestions.
  destruct (Nat.ltb_spec (String.length query) 2) as [Hlt|Hge].
  { split_and!; [by eexists _, _ | done | lia]. }
  unfold try_catch, bind, fetchSuggestions, bind.
  destruct (suggestLoop_shape network cancelAt encodeURIComponent query (workerList ws) w)
    as (r & w' & k & -> & Hk & Htr & Hc & Hr).
  split_and!.
  - destruct r as [s|]; cbn.
    + destruct (nonEmpty s); [| by eexists _, _].
      destruct s; cbn; by eexists _, _.
    + match goal with |- context [if ?c then _ else _] => destruct c end;
        cbn; by eexists _, _.
  - lia.
  - intros _ Hnone. destruct r as [s|].
    { destruct Hr as (t & worker & _ & _ & Ho). by rewrite Hnone in Ho. }
    assert (Hne : localSuggestions toLowerCase history query ≠ []).
    { unfold localSuggestions.
      destruct (uniq_spec (historySuggestions toLowerCase history query ++ related query))
        as (_ & Hu & _).
      intros Hnil.
      assert (Hin : query +:+ " meaning"
                    ∈ uniq (historySuggestions toLowerCase history query ++ related query)).
      { apply Hu. apply elem_of_app. right. unfold related, phrases. cbn. set_solver. }
      destruct (uniq (historySuggestions toLowerCase history query ++ related query))
        as [|y ys]; [by apply elem_of_nil in Hin | done]. }
    exists w'. split; [| done]. cbn.
    destruct (localSuggestions toLowerCase history query) as [|y ys]; [done |]. done.
Qed.

(** With every worker silent and an empty history the three phrases are
    shown. *)
Lemma showSuggestions_offline :
  ∃ w', showSuggestions defaultWorkers allHang None id id [] "ca" (startWorld defaultWorkers 0)
        = (Normal (Shown (JStr <$> localSuggestions id [] "ca")), w')
        ∧ localSuggestions id [] "ca" ≠ [].
Proof.
  destruct (showSuggestions_behaviour defaultWorkers allHang None id id [] "ca"
              (startWorld defaultWorkers 0)) as (_ & _ & H).
  apply H; [cbn; lia | reflexivity].
Defined.

End SuggestionsFacts.

(** * Migration of the settings *)

Module MigrationFacts.

Import Orchestrator Storage.

Lemma unset_insert_truthy (key : string) (v : JsonVal) (s : gmap string JsonVal) :
  truthy v = true → unset key (<[key := v]> s) = false.
Proof. intros H. unfold unset. by rewrite lookup_insert_eq, H. Qed.

Lemma unset_insert_other (key key' : string) (v : JsonVal) (s : gmap string JsonVal) :
  key ≠ key' → unset key (<[key' := v]> s) = unset key s.
Proof. intros H. unfold unset. by rewrite lookup_insert_ne. Qed.

Lemma lookup_cond_insert (b : bool) (key key' : string) (v : JsonVal)
    (s : gmap string JsonVal) :
  key ≠ key' → (if b then <[key' := v]> s else s) !! key = s !! key.
Proof. intros H. destruct b; [by rewrite lookup_insert_ne | done]. Qed.

(** X13.  [migrate()] works once: run from version 1.0.0 (or with no
    version stored) it leaves both [searchEngine] and [keyboardShortcuts]
    truthy, replacing an explicit [keyboardShortcuts: false] by [true], and
    stores version 1.1.0; run at any other version it changes nothing, so
    a second run is the identity.  No other setting is touched and no other
    storage key is written: the migrated settings are not saved. *)
Theorem migrate_runs_once (m : Manager) :
  let m' := migrate m in
  migrate m' = m'
  ∧ (settingsVersion (stored m) ≠ "1.0.0" → m' = m)
  ∧ (settingsVersion (stored m) = "1.0.0" →
       unset "searchEngine" (currentSettings m') = false
       ∧ unset "keyboardShortcuts" (currentSettings m') = false
       ∧ (currentSettings m !! "keyboardShortcuts" = Some (JBool false) →
            currentSettings m' !! "keyboardShortcuts" = Some (JBool true))
       ∧ settingsVersion (stored m') = "1.1.0")
  ∧ (∀ key, key ≠ "searchEngine" → key ≠ "keyboardShortcuts" →
       currentSettings m' !! key = currentSettings m !! key)
  ∧ (∀ key, key ≠ "settingsVersion" → stored m' !! key = stored m !! key).
Proof.
  cbn zeta. unfold migrate.
  destruct (String.eqb_spec (settingsVersion (stored m)) "1.0.0") as [Hv|Hv].
  - set (s1 := if unset "searchEngine" (currentSettings m)
               then <["searchEngine" := JStr "worker"]> (currentSettings m)
               else currentSettings m).
    set (s2 := if unset "keyboardShortcuts" s1
               then <["keyboardShortcuts" := JBool true]> s1 else s1).
    assert (Hnew : settingsVersion (<["settingsVersion" := "1.1.0"]> (stored m)) = "1.1.0").
    { unfold settingsVersion. by rewrite lookup_insert_eq. }
    assert (H1 : unset "searchEngine" s1 = false).
    { subst s1. destruct (unset "searchEngine" (currentSettings m)) eqn:E; [|done].
      by apply unset_insert_truthy. }
    assert (H2 : unset "keyboardShortcuts" s2 = false).
    { subst s2. destruct (unset "keyboardShortcuts" s1) eqn:E; [|done].
      by apply unset_insert_truthy. }
    assert (H3 : unset "searchEngine" s2 = false).
    { subst s2. destruct (unset "keyboardShortcuts" s1); [|done].
      by rewrite unset_insert_other. }
    cbn [stored currentSettings]. rewrite Hnew.
    change (String.eqb "1.1.0" "1.0.0") with false. cbv iota.
    split; [done |]. split; [done |]. split.
    + intros _. split; [done |]. split; [done |]. split; [| done].
      intros Hoff. subst s2.
      assert (unset "keyboardShortcuts" s1 = true) as ->.
      { subst s1. destruct (unset "searchEngine" (currentSettings m)).
        - rewrite unset_insert_other by done. unfold unset. by rewrite Hoff.
        - unfold unset. by rewrite Hoff. }
      by rewrite lookup_insert_eq.
    + split.
      * intros key Hk1 Hk2. subst s2 s1.
        rewrite !lookup_cond_insert; done.
      * intros key Hk. by rewrite lookup_insert_ne.
  - assert (String.eqb (settingsVersion (stored m)) "1.0.0" = false) as ->
      by by apply String.eqb_neq.
    split; [done |]. split; [done |]. split; [done |]. done.
Qed.

(** A user who had switched the keyboard shortcuts off has them switched
    on by the migration. *)
Lemma migrate_overrides_opt_out :
  currentSettings (migrate (mkManager {["keyboardShortcuts" := JBool false]} ∅))
    !! "keyboardShortcuts" = Some (JBool true).
Proof.
  destruct (migrate_runs_once (mkManager {["keyboardShortcuts" := JBool false]} ∅))
    as (_ & _ & H & _).
  destruct (H eq_refl) as (_ & _ & H' & _).
  exact (H' eq_refl).
Defined.

End MigrationFacts.

(** * Start-up and settings of the search controller *)

Module StartupFacts.

Import Tracker Orchestrator Startup.

Lemma lookup_defined (o : JsObject) (key : string) :
  defined o !! key = own o !! key ≫= id.
Proof. unfold defined. apply lookup_omap. Qed.

Lemma lookup_defined_setProperty (key k : string) (v : JsValue) (o : JsObject) :
  defined (setProperty k v o) !! key = if decide (key = k) then v else defined o !! key.
Proof.
  rewrite !lookup_defined. unfold setProperty. cbn [own].
  destruct (decide (key = k)) as [->|Hne].
  - by rewrite lookup_insert_eq.
  - by rewrite lookup_insert_ne.
Qed.

Lemma own_assignProperty (key k : string) (v : JsonVal) (o : JsObject) :
  key ≠ "__proto__" →
  own (assignProperty k v o) !! key
  = if decide (key = k) then Some (Some v) else own o !! key.
Proof.
  intros Hkey. unfold assignProperty.
  destruct (String.eqb_spec k "__proto__") as [->|Hk]; cbn [andb].
  - rewrite decide_False by done.
    destruct (reachesAccessor o).
    + unfold setPrototype. by destruct v.
    + cbn. by rewrite lookup_insert_ne.
  - cbn. destruct (decide (key = k)) as [->|Hne].
    + by rewrite lookup_insert_eq.
    + by rewrite lookup_insert_ne.
Qed.

Lemma own_assign_fields (fields : list (string * JsonVal)) (o : JsObject) (key : string) :
  key ≠ "__proto__" →
  own (foldl (fun acc kv => assignProperty (fst kv) (snd kv) acc) o fields) !! key
  = match lookupField key fields with
    | Some v => Some (Some v)
    | None => own o !! key
    end.
Proof.
  intros Hkey. revert o.
  induction fields as [|[k v] fields IH]; intros o; [done |].
  cbn [foldl lookupField fst snd]. rewrite IH.
  destruct (lookupField key fields); [done |].
  rewrite own_assignProperty by done.
  destruct (String.eqb_spec k key) as [->|Hk].
  - by rewrite decide_True.
  - by rewrite decide_False.
Qed.

Lemma prototype_setProperty (k : string) (v : JsValue) (o : JsObject) :
  prototype (setProperty k v o) = prototype o.
Proof. reflexivity. Qed.

Section StartupProperties.

Variable parse : string -> option JsonVal.
Variable stringify : gmap string JsonVal -> string.

(** X14.  When the stored configuration parses to an object with a truthy
    [workerUrl], the controller starts with that value as its primary
    worker and in [config.workerUrl], and with the five default fallbacks;
    the call of the missing method [updateWorkerHealth] throws, which is
    caught and logged as a failure to load the configuration.  The health
    map is not rebuilt: it holds the fresh records of the six default
    workers, the replaced primary among them, and no other. *)
Theorem stored_worker_has_no_health_record (now : Z) (localStorage : gmap string string)
    (saved : string) (loadedConfig workerUrl : JsonVal) :
  localStorage !! "searchConfig" = Some saved →
  saved ≠ EmptyString →
  parse saved = Some loadedConfig →
  property "workerUrl" loadedConfig = Some workerUrl →
  truthy workerUrl = true →
  let c := construct parse now localStorage in
  primaryUrl c = workerUrl
  ∧ config c !! "workerUrl" = Some workerUrl
  ∧ fallbackUrls c = fallbacks defaultWorkers
  ∧ warnings c = ["Failed to load config:"]
  ∧ storage c = localStorage
  ∧ ∀ url, healthOf url (health c)
           = if decide (url ∈ workerList defaultWorkers)
             then Some (freshHealth 0) else None.
Proof.
  intros Hsaved Hne Hparse Hurl Htruthy. cbn zeta.
  unfold construct, loadConfig. cbn [storage]. rewrite Hsaved.
  assert (String.eqb saved EmptyString = false) as -> by by apply String.eqb_neq.
  unfold loadConfigBody. rewrite Hparse.
  destruct loadedConfig as [| | | | |fields]; try discriminate Hurl.
  cbn [configObject primaryUrl fallbackUrls health storage warnings].
  rewrite Hurl, Htruthy. unfold config.
  cbn [configObject primaryUrl fallbackUrls health storage warnings].
  split; [done |]. split.
  { rewrite lookup_defined. unfold assign. cbn [ownProperties].
    rewrite own_assign_fields by done. cbn in Hurl. by rewrite Hurl. }
  split; [done |]. split; [done |]. split; [done |].
  intros url. unfold startWorld. rewrite TrackerFacts.lookup_initializeWorkerHealth.
  destruct (decide _); [done |]. unfold healthOf, emptyWorld. cbn. apply lookup_empty.
Qed.

(** X15.  [applySettings] with an [advanced] section never leaves a falsy
    retry limit or timeout: a truthy requested value is stored as it is,
    of whatever type or size, and a missing or falsy one, 0 included, is
    replaced by 3 and 15000.  The workers and their health are not touched,
    and the configuration is written to storage. *)
Theorem applySettings_advanced (settings : list (string * JsonVal)) (advanced : JsonVal)
    (c : Controller) :
  section "advanced" settings = Some advanced →
  let c' := applySettings stringify settings c in
  let stored key fallback :=
    config c' !! key
    = Some (match property key advanced with
            | Some v => if truthy v then v else fallback
            | None => fallback
            end) in
  stored "maxRetries" (JNum 3%float)
  ∧ stored "requestTimeout" (JNum 15000%float)
  ∧ (∃ v, config c' !! "maxRetries" = Some v ∧ truthy v = true)
  ∧ (∃ v, config c' !! "requestTimeout" = Some v ∧ truthy v = true)
  ∧ (property "maxRetries" advanced = Some (JNum 0%float) →
       config c' !! "maxRetries" = Some (JNum 3%float))
  ∧ storage c' !! "searchConfig" = Some (stringify (config c'))
  ∧ primaryUrl c' = primaryUrl c
  ∧ fallbackUrls c' = fallbackUrls c
  ∧ health c' = health c.
Proof.
  intros Hadv. cbn zeta. unfold applySettings, saveConfig. rewrite Hadv.
  unfold config. cbn [configObject primaryUrl fallbackUrls health storage warnings].
  set (cfg := match section "general" settings with
              | Some general => _
              | None => _
              end).
  clearbody cfg.
  assert (Hr : ∀ fallback, truthy fallback = true →
            ∃ v, orElse (property "maxRetries" advanced) (Some fallback) = Some v
                 ∧ truthy v = true
                 ∧ v = match property "maxRetries" advanced with
                       | Some v => if truthy v then v else fallback
                       | None => fallback
                       end).
  { intros fallback Hf. unfold orElse.
    destruct (property "maxRetries" advanced) as [v|]; [| by eexists].
    destruct (truthy v) eqn:E; by eexists. }
  assert (Ht : ∀ fallback, truthy fallback = true →
            ∃ v, orElse (property "requestTimeout" advanced) (Some fallback) = Some v
                 ∧ truthy v = true
                 ∧ v = match property "requestTimeout" advanced with
                       | Some v => if truthy v then v else fallback
                       | None => fallback
                       end).
  { intros fallback Hf. unfold orElse.
    destruct (property "requestTimeout" advanced) as [v|]; [| by eexists].
    destruct (truthy v) eqn:E; by eexists. }
  destruct (Hr (JNum 3%float) eq_refl) as (r & Er & Hrt & Hrv).
  destruct (Ht (JNum 15000%float) eq_refl) as (t & Et & Htt & Htv).
  rewrite Er, Et.
  assert (Hmr : defined (setProperty "requestTimeout" (Some t)
                           (setProperty "maxRetries" (Some r) cfg)) !! "maxRetries" = Some r).
  { rewrite !lookup_defined_setProperty. by rewrite decide_False, decide_True. }
  assert (Hrq : defined (setProperty "requestTimeout" (Some t)
                           (setProperty "maxRetries" (Some r) cfg)) !! "requestTimeout"
                = Some t).
  { rewrite !lookup_defined_setProperty. by rewrite decide_True. }
  rewrite Hmr, Hrq.
  split; [by rewrite Hrv |]. split; [by rewrite Htv |].
  split; [by exists r |]. split; [by exists t |].
  split.
  { intros H0. rewrite Hrv, H0. done. }
  split; [by rewrite lookup_insert_eq |]. done.
Qed.

(** X16.  [applySettings] copies the fields [safeSearch], [resultsPerPage]
    and [searchProvider] of a [search] section without defaults: a field the
    section lacks erases the configured value, so that [config.safeSearch]
    is [undefined] afterwards.  Only [workerUrl] falls back, to what
    [this.config.workerUrl] read before, be it an own property or one
    inherited from a prototype that a stored configuration installed; and
    [useWorkerFallback] is always a boolean, [false] only when the section
    says exactly [false].  The other properties are left alone, but for
    [language], [maxRetries] and [requestTimeout] when the settings have a
    [general] or an [advanced] section; the prototype is not changed, and
    the configuration is written to storage. *)
Theorem applySettings_search (settings : list (string * JsonVal)) (search : JsonVal)
    (c : Controller) :
  section "search" settings = Some search →
  let c' := applySettings stringify settings c in
  (∀ key, key ∈ ["safeSearch"; "resultsPerPage"; "searchProvider"] →
     config c' !! key = property key search)
  ∧ config c' !! "workerUrl"
    = orElse (property "workerUrl" search) (getProperty "workerUrl" (configObject c))
  ∧ (∃ b, config c' !! "useWorkerFallback" = Some (JBool b)
          ∧ (b = false ↔ property "useWorkerFallback" search = Some (JBool false)))
  ∧ (∀ key, key ∉ ["workerUrl"; "safeSearch"; "resultsPerPage"; "searchProvider";
                   "useWorkerFallback"; "language"; "maxRetries"; "requestTimeout"] →
       config c' !! key = config c !! key)
  ∧ (section "general" settings = None →
       config c' !! "language" = config c !! "language")
  ∧ (section "advanced" settings = None →
       config c' !! "maxRetries" = config c !! "maxRetries"
       ∧ config c' !! "requestTimeout" = config c !! "requestTimeout")
  ∧ prototype (configObject c') = prototype (configObject c)
  ∧ storage c' !! "searchConfig" = Some (stringify (config c')).
Proof.
  intros Hs. cbn zeta. unfold applySettings, saveConfig. rewrite Hs.
  unfold config. cbn [configObject primaryUrl fallbackUrls health storage warnings].
  split_and!.
  - intros key Hkey.
    destruct (section "general" settings), (section "advanced" settings);
      rewrite !lookup_defined_setProperty;
      repeat (apply elem_of_cons in Hkey as [->|Hkey]; [by cbn |]);
      by apply elem_of_nil in Hkey.
  - destruct (section "general" settings), (section "advanced" settings);
      rewrite !lookup_defined_setProperty; by cbn.
  - destruct (section "general" settings), (section "advanced" settings);
      rewrite !lookup_defined_setProperty; cbn;
      destruct (property "useWorkerFallback" search) as [[|[|]| | | |]|]; cbn;
      eexists; (split; [reflexivity |]); split; intros; congruence.
  - intros key Hkey.
    destruct (section "general" settings), (section "advanced" settings);
      rewrite !lookup_defined_setProperty;
      repeat (destruct (decide _) as [->|?]; [exfalso; apply Hkey; set_solver |]);
      done.
  - intros ->. destruct (section "advanced" settings);
      rewrite !lookup_defined_setProperty; by cbn.
  - intros ->. destruct (section "general" settings);
      rewrite !lookup_defined_setProperty; by cbn.
  - by destruct (section "general" settings), (section "advanced" settings).
  - by rewrite lookup_insert_eq.
Qed.

End StartupProperties.

(** A stored [workerUrl] that is none of the default workers: it becomes
    the primary worker and has no health record. *)
Lemma stored_worker_example :
  let c := construct (fun _ => Some (JObj [("workerUrl", JStr "https://my.worker.dev")]))
             1000 {["searchConfig" := "{}"]} in
  primaryUrl c = JStr "https://my.worker.dev"
  ∧ healthOf "https://my.worker.dev" (health c) = None
  ∧ healthOf "https://proxy.yoohoo.workers.dev" (health c) = Some (freshHealth 0).
Proof.
  pose proof (stored_worker_has_no_health_record
                (fun _ => Some (JObj [("workerUrl", JStr "https://my.worker.dev")]))
                1000 {["searchConfig" := "{}"]} "{}"
                (JObj [("workerUrl", JStr "https://my.worker.dev")])
                (JStr "https://my.worker.dev")
                eq_refl ltac:(discriminate) eq_refl eq_refl eq_refl)
    as (Hp & _ & _ & _ & _ & Hh).
  cbn zeta. split; [exact Hp |].
  split; [exact (Hh "https://my.worker.dev") | exact (Hh "https://proxy.yoohoo.workers.dev")].
Defined.

(** A request for no retries at all is stored as three. *)
Lemma applySettings_zero_retries :
  let c := construct (fun _ => None) 0 ∅ in
  config (applySettings (fun _ => "saved")
            [("advanced", JObj [("maxRetries", JNum 0%float)])] c) !! "maxRetries"
  = Some (JNum 3%float).
Proof.
  pose proof (applySettings_advanced (fun _ => "saved")
                [("advanced", JObj [("maxRetries", JNum 0%float)])]
                (JObj [("maxRetries", JNum 0%float)])
                (construct (fun _ => None) 0 ∅) eq_refl)
    as (_ & _ & _ & _ & H & _).
  exact (H eq_refl).
Defined.

(** A [search] section that names only the provider erases the safe-search
    level the constructor had set.  And when the stored configuration has
    installed a prototype with a [workerUrl], a [search] section that gives
    none copies the inherited one into the configuration. *)
Lemma applySettings_erases_safeSearch :
  (let c := construct (fun _ => None) 0 ∅ in
   config c !! "safeSearch" = Some (JStr "moderate")
   ∧ config (applySettings (fun _ => "saved")
               [("search", JObj [("searchProvider", JStr "web")])] c) !! "safeSearch"
     = None)
  ∧ (let c := construct
                (fun _ => Some (JObj [("__proto__", JObj [("workerUrl", JStr "https://w")])]))
                0 {["searchConfig" := "{}"]} in
     config c !! "workerUrl" = None
     ∧ config (applySettings (fun _ => "saved")
                 [("search", JObj [("searchProvider", JStr "web")])] c) !! "workerUrl"
       = Some (JStr "https://w")).
Proof.
  split.
  - split; [reflexivity |].
    pose proof (applySettings_search (fun _ => "saved")
                  [("search", JObj [("searchProvider", JStr "web")])]
                  (JObj [("searchProvider", JStr "web")])
                  (construct (fun _ => None) 0 ∅) eq_refl)
      as (H & _).
    exact (H "safeSearch" ltac:(set_solver)).
  - split; [reflexivity |].
    pose proof (applySettings_search (fun _ => "saved")
                  [("search", JObj [("searchProvider", JStr "web")])]
                  (JObj [("searchProvider", JStr "web")])
                  (construct
                     (fun _ => Some (JObj [("__proto__",
                                            JObj [("workerUrl", JStr "https://w")])]))
                     0 {["searchConfig" := "{}"]}) eq_refl)
      as (_ & H & _).
    rewrite H. reflexivity.
Defined.

End StartupFacts.
